(** * Pruning of the tangle database (plugins/snapshot/pruning.go)

    A shallow embedding of the pruning engine of the node: the package-level
    functions [setIsPruning], [pruneUnconfirmedMessages], [pruneMilestone],
    [pruneMessages] and [pruneDatabase] are translated into functions of a
    state monad over the node's stores.  The collaborators that live in other
    packages (the tangle storage, the UTXO ledger, the parent traverser, the
    solid entry point walker) are either modelled from their contract or left
    as parameters of the development. *)

From Stdlib Require Import ZArith Lia.
From stdpp Require Import base gmap sets list strings.

Local Open Scope Z_scope.

(** ** Machine integers

    [milestone.Index] is a [uint32]: arithmetic on it wraps around modulo
    [2^32].  Go's [int] results (lengths and counters) are kept as [Z]; the
    counters here are sums of two map lengths and stay far below [2^63]. *)

Abbreviation Index := Z (only parsing).
Abbreviation MessageID := string (only parsing).
Abbreviation IndexationKey := string (only parsing).

Definition index_modulus : Z := 2 ^ 32.

Definition wrap32 (z : Z) : Z := z mod index_modulus.

Definition idx_add (a b : Index) : Index := wrap32 (a + b).
Definition idx_sub (a b : Index) : Index := wrap32 (a - b).

Definition is_index (z : Z) : Prop := 0 <= z < index_modulus.

(** [AdditionalPruningThreshold] (pruning.go, line 20). *)
Definition AdditionalPruningThreshold : Index := 50.

(** ** Errors *)

(** The three sentinel errors of the package, [errors.Wrapf] with the two
    formatted indexes of the message, and errors raised by collaborators. *)
Inductive error : Type :=
| ErrNotEnoughHistory
| ErrNoPruningNeeded
| ErrPruningAborted
| Wrapf (cause : error) (arg1 arg2 : Index)
| ErrExternal (code : Z).

(** [errors.Cause]: the innermost wrapped error. *)
Fixpoint Cause (e : error) : error :=
  match e with
  | Wrapf c _ _ => Cause c
  | _ => e
  end.

(** What a call of [pruneDatabase] does to its caller: it returns (with [nil]
    or an error), panics in [log.Panic], or never leaves its loop. *)
Inductive Result : Type :=
| Returned (err : option error)
| Panicked (msg : string)
| Diverged.

(** ** Data model *)

Record SnapshotInfo : Type := mkSnapshotInfo {
  SnapshotIndex : Index;
  EntryPointIndex : Index;
  PruningIndex : Index
}.

Definition withEntryPointIndex (i : Index) (s : SnapshotInfo) : SnapshotInfo :=
  mkSnapshotInfo (SnapshotIndex s) i (PruningIndex s).

Definition withPruningIndex (i : Index) (s : SnapshotInfo) : SnapshotInfo :=
  mkSnapshotInfo (SnapshotIndex s) (EntryPointIndex s) i.

Record Message : Type := mkMessage {
  GetMessageID : MessageID;
  GetParent1MessageID : MessageID;
  GetParent2MessageID : MessageID;
  CheckIfIndexation : option IndexationKey
}.

Record Metadata : Type := mkMetadata {
  metaMessageID : MessageID;
  metaParent1 : MessageID;
  metaParent2 : MessageID;
  IsConfirmed : bool
}.

Record Milestone : Type := mkMilestone {
  msIndex : Index;
  msMessageID : MessageID
}.

(** Lines written by [log.Infof] and [log.Warnf]. *)
Inductive LogLine : Type :=
| LogPruningMilestone (milestoneIndex : Index)
| LogMilestoneNotFound (milestoneIndex : Index)
| LogTraverseFailed (milestoneIndex : Index) (err : error)
| LogPruneMilestoneFailed (err : error)
| LogPruned (milestoneIndex : Index) (txCountDeleted msgCountChecked : Z).

(** The history of a run: the writes to shared and persisted state and the
    calls that leave the package, most recent first.  [EvPruneMessages]
    records the argument of each call of [pruneMessages]. *)
Inductive Event : Type :=
| EvIsPruning (value : bool)
| EvStoreSolidEntryPoints (seps : gset (MessageID * Index))
| EvSetSnapshotInfo (info : SnapshotInfo)
| EvPruneMessages (ids : gset MessageID)
| EvLog (line : LogLine)
| EvPruningMilestoneIndexChanged (milestoneIndex : Index)
| EvRunGarbageCollection.

Record State : Type := mkState {
  snapshotInfo : option SnapshotInfo;
  isPruning : bool;
  solidEntryPoints : gset (MessageID * Index);
  storedSolidEntryPoints : gset (MessageID * Index);
  messages : gmap MessageID Message;
  metadata : gmap MessageID Metadata;
  children : gmap MessageID (gset MessageID);
  indexations : gset (IndexationKey * MessageID);
  unconfirmed : gmap Index (list MessageID);
  milestones : gmap Index Milestone;
  ledgerDiffs : gset Index;
  trace : list Event
}.

(** ** The state monad *)

Definition M (A : Type) : Type := State → A * State.

Definition ret {A : Type} (x : A) : M A := λ st, (x, st).

Definition bind {A B : Type} (m : M A) (f : A → M B) : M B :=
  λ st, let r := m st in f r.1 r.2.

Declare Scope prune_scope.
Delimit Scope prune_scope with prune.
Notation "x <- m ;; k" := (bind m (λ x, k))
  (at level 100, m at next level, right associativity) : prune_scope.
Notation "m ;; k" := (bind m (λ _, k))
  (at level 100, right associativity) : prune_scope.
Local Open Scope prune_scope.

Definition gets {A : Type} (f : State → A) : M A := λ st, (f st, st).
Definition modify (f : State → State) : M unit := λ st, (tt, f st).

Fixpoint forEach {A : Type} (f : A → M unit) (l : list A) : M unit :=
  match l with
  | [] => ret tt
  | x :: l' => f x ;; forEach f l'
  end.

Fixpoint foldM {A B : Type} (f : B → A → M B) (l : list A) (b : B) : M B :=
  match l with
  | [] => ret b
  | x :: l' => b' <- f b x ;; foldM f l' b'
  end.

(** ** Field updates *)

Definition set_snapshotInfo (v : option SnapshotInfo) (s : State) : State :=
  mkState v (isPruning s) (solidEntryPoints s) (storedSolidEntryPoints s)
    (messages s) (metadata s) (children s) (indexations s) (unconfirmed s)
    (milestones s) (ledgerDiffs s) (trace s).

Definition set_isPruning (v : bool) (s : State) : State :=
  mkState (snapshotInfo s) v (solidEntryPoints s) (storedSolidEntryPoints s)
    (messages s) (metadata s) (children s) (indexations s) (unconfirmed s)
    (milestones s) (ledgerDiffs s) (trace s).

Definition set_solidEntryPoints (v : gset (MessageID * Index)) (s : State) : State :=
  mkState (snapshotInfo s) (isPruning s) v (storedSolidEntryPoints s)
    (messages s) (metadata s) (children s) (indexations s) (unconfirmed s)
    (milestones s) (ledgerDiffs s) (trace s).

Definition set_storedSolidEntryPoints (v : gset (MessageID * Index)) (s : State) : State :=
  mkState (snapshotInfo s) (isPruning s) (solidEntryPoints s) v
    (messages s) (metadata s) (children s) (indexations s) (unconfirmed s)
    (milestones s) (ledgerDiffs s) (trace s).

Definition set_messages (v : gmap MessageID Message) (s : State) : State :=
  mkState (snapshotInfo s) (isPruning s) (solidEntryPoints s) (storedSolidEntryPoints s)
    v (metadata s) (children s) (indexations s) (unconfirmed s)
    (milestones s) (ledgerDiffs s) (trace s).

Definition set_metadata (v : gmap MessageID Metadata) (s : State) : State :=
  mkState (snapshotInfo s) (isPruning s) (solidEntryPoints s) (storedSolidEntryPoints s)
    (messages s) v (children s) (indexations s) (unconfirmed s)
    (milestones s) (ledgerDiffs s) (trace s).

Definition set_children (v : gmap MessageID (gset MessageID)) (s : State) : State :=
  mkState (snapshotInfo s) (isPruning s) (solidEntryPoints s) (storedSolidEntryPoints s)
    (messages s) (metadata s) v (indexations s) (unconfirmed s)
    (milestones s) (ledgerDiffs s) (trace s).

Definition set_indexations (v : gset (IndexationKey * MessageID)) (s : State) : State :=
  mkState (snapshotInfo s) (isPruning s) (solidEntryPoints s) (storedSolidEntryPoints s)
    (messages s) (metadata s) (children s) v (unconfirmed s)
    (milestones s) (ledgerDiffs s) (trace s).

Definition set_unconfirmed (v : gmap Index (list MessageID)) (s : State) : State :=
  mkState (snapshotInfo s) (isPruning s) (solidEntryPoints s) (storedSolidEntryPoints s)
    (messages s) (metadata s) (children s) (indexations s) v
    (milestones s) (ledgerDiffs s) (trace s).

Definition set_milestones (v : gmap Index Milestone) (s : State) : State :=
  mkState (snapshotInfo s) (isPruning s) (solidEntryPoints s) (storedSolidEntryPoints s)
    (messages s) (metadata s) (children s) (indexations s) (unconfirmed s)
    v (ledgerDiffs s) (trace s).

Definition set_ledgerDiffs (v : gset Index) (s : State) : State :=
  mkState (snapshotInfo s) (isPruning s) (solidEntryPoints s) (storedSolidEntryPoints s)
    (messages s) (metadata s) (children s) (indexations s) (unconfirmed s)
    (milestones s) v (trace s).

Definition set_trace (v : list Event) (s : State) : State :=
  mkState (snapshotInfo s) (isPruning s) (solidEntryPoints s) (storedSolidEntryPoints s)
    (messages s) (metadata s) (children s) (indexations s) (unconfirmed s)
    (milestones s) (ledgerDiffs s) v.

(** Appends an event to the history. *)
Definition record (e : Event) : M unit := modify (λ s, set_trace (e :: trace s) s).

(** ** Collaborators of the package

    The storage layer ([tangle], [utxo], [database]) and the logger are not
    part of the package.  Cached handles are released on every path of the
    code; reference counts are not part of the state. *)

(** Modelled from the spec: [tangle.GetSnapshotInfo] is missing; it reads the
    persisted retention state ([getRetentionState]).  [pruneDatabase] writes
    a field of the state it got and calls [SetSnapshotInfo] in the next
    statement, both times; the object in memory and the persisted state are
    one here. *)
Definition GetSnapshotInfo : M (option SnapshotInfo) := gets snapshotInfo.

(** Modelled from the spec: [tangle.SetSnapshotInfo] is missing; it persists
    the retention state ([setRetentionState]). *)
Definition SetSnapshotInfo (info : SnapshotInfo) : M unit :=
  modify (λ s, set_trace (EvSetSnapshotInfo info :: trace s)
                 (set_snapshotInfo (Some info) s)).

(** Modelled from the spec: [tangle.GetUnconfirmedMessageIDs] is missing; it
    is the sequence [getUnconfirmedVertexIDs(index)]. *)
Definition GetUnconfirmedMessageIDs (index : Index) : M (list MessageID) :=
  gets (λ s, default [] (unconfirmed s !! index)).

(** Modelled from the spec: [tangle.DeleteUnconfirmedMessages] is missing; it
    clears the unconfirmed-index entries of the index
    ([deleteUnconfirmedIndex]). *)
Definition DeleteUnconfirmedMessages (index : Index) : M unit :=
  modify (λ s, set_unconfirmed (delete index (unconfirmed s)) s).

(** Modelled from the spec: [tangle.GetCachedMessageMetadataOrNil] is missing;
    it is the lookup [getVertexMetadata(id)]. *)
Definition GetCachedMessageMetadataOrNil (id : MessageID) : M (option Metadata) :=
  gets (λ s, metadata s !! id).

(** Modelled from the spec: [tangle.GetCachedMessageOrNil] is missing; it is
    the lookup [getVertex(id)]. *)
Definition GetCachedMessageOrNil (id : MessageID) : M (option Message) :=
  gets (λ s, messages s !! id).

(** Modelled from the spec: [tangle.DeleteChild] is missing; it removes one
    entry of the child adjacency of the parent ([deleteChildEdge]). *)
Definition DeleteChild (parent child : MessageID) : M unit :=
  modify (λ s, set_children (alter (λ cs, cs ∖ {[child]}) parent (children s)) s).

(** Modelled from the spec: [tangle.DeleteChildren] is missing; it removes
    all child adjacency entries of the message ([deleteChildEdgesOf]). *)
Definition DeleteChildren (id : MessageID) : M unit :=
  modify (λ s, set_children (delete id (children s)) s).

(** Modelled from the spec: [tangle.DeleteIndexation] is missing; it removes
    one secondary-index entry ([deleteSecondaryIndex]). *)
Definition DeleteIndexation (key : IndexationKey) (id : MessageID) : M unit :=
  modify (λ s, set_indexations (indexations s ∖ {[(key, id)]}) s).

(** Modelled from the spec: [tangle.DeleteMessage] is missing; it deletes the
    vertex record, metadata included ([deleteVertex]). *)
Definition DeleteMessage (id : MessageID) : M unit :=
  modify (λ s, set_messages (delete id (messages s))
                 (set_metadata (delete id (metadata s)) s)).

(** Modelled from the spec: [tangle.GetCachedMilestoneOrNil] is missing; it is
    the lookup [getMilestone(index)]. *)
Definition GetCachedMilestoneOrNil (index : Index) : M (option Milestone) :=
  gets (λ s, milestones s !! index).

(** Modelled from the spec: [tangle.DeleteMilestone] is missing; it deletes
    the milestone record ([deleteMilestone]). *)
Definition DeleteMilestone (index : Index) : M unit :=
  modify (λ s, set_milestones (delete index (milestones s)) s).

(** Modelled from the spec: [tangle.WriteLockSolidEntryPoints] and
    [tangle.WriteUnlockSolidEntryPoints] are missing ([beginExclusiveWrite],
    [endExclusiveWrite]); a single run holds the lock alone. *)
Definition WriteLockSolidEntryPoints : M unit := ret tt.
Definition WriteUnlockSolidEntryPoints : M unit := ret tt.

(** Modelled from the spec: [tangle.ResetSolidEntryPoints] is missing; it
    clears the in-memory boundary set ([clear]). *)
Definition ResetSolidEntryPoints : M unit := modify (set_solidEntryPoints ∅).

(** Modelled from the spec: [tangle.SolidEntryPointsAdd] is missing; it adds
    a pair to the in-memory boundary set ([add(id,index)]). *)
Definition SolidEntryPointsAdd (id : MessageID) (index : Index) : M unit :=
  modify (λ s, set_solidEntryPoints (solidEntryPoints s ∪ {[(id, index)]}) s).

(** Modelled from the spec: [tangle.StoreSolidEntryPoints] is missing; it
    persists the in-memory boundary set ([commit]). *)
Definition StoreSolidEntryPoints : M unit :=
  modify (λ s, set_trace (EvStoreSolidEntryPoints (solidEntryPoints s) :: trace s)
                 (set_storedSolidEntryPoints (solidEntryPoints s) s)).

(** Modelled from the spec: [tangle.SolidEntryPointsContain] is missing;
    membership in the boundary set is checked by identifier only. *)
Definition SolidEntryPointsContain (s : State) (id : MessageID) : bool :=
  bool_decide (id ∈ (set_map fst (solidEntryPoints s) : gset MessageID)).

(** Modelled from the spec: [database.RunGarbageCollection] is missing
    ([runStorageCompaction]). *)
Definition RunGarbageCollection : M unit := record EvRunGarbageCollection.

(** Modelled from the spec: [Events.PruningMilestoneIndexChanged.Trigger] is
    missing; it notifies the progress observers. *)
Definition TriggerPruningMilestoneIndexChanged (index : Index) : M unit :=
  record (EvPruningMilestoneIndexChanged index).

Definition Infof (line : LogLine) : M unit := record (EvLog line).
Definition Warnf (line : LogLine) : M unit := record (EvLog line).

(** The abort channel as the loop sees it: the outcome of the non-blocking
    receive at the top of the iteration for a milestone index. *)
Abbreviation AbortSignal := (Index → bool) (only parsing).

(** ** Reading the history *)

(** The milestone indexes whose iteration started ("Pruning milestone (%d)..."
    was logged), most recent first. *)
Definition evStarted (e : Event) : option Index :=
  match e with
  | EvLog (LogPruningMilestone i) => Some i
  | _ => None
  end.

(** The milestone indexes whose iteration ran to its end
    ([PruningMilestoneIndexChanged] was triggered), most recent first. *)
Definition evCompleted (e : Event) : option Index :=
  match e with
  | EvPruningMilestoneIndexChanged i => Some i
  | _ => None
  end.

(** The retention states written by [SetSnapshotInfo], most recent first. *)
Definition evPersisted (e : Event) : option SnapshotInfo :=
  match e with
  | EvSetSnapshotInfo i => Some i
  | _ => None
  end.

(** The sets handed to [pruneMessages], most recent first. *)
Definition evDeletionSet (e : Event) : option (gset MessageID) :=
  match e with
  | EvPruneMessages ids => Some ids
  | _ => None
  end.

(** Events that only the frame of [pruneDatabase] produces: the pruning flag,
    the boundary set, the garbage collection. *)
Definition evOuter (e : Event) : bool :=
  match e with
  | EvIsPruning _ | EvStoreSolidEntryPoints _ | EvRunGarbageCollection => true
  | _ => false
  end.

Definition started (tr : list Event) : list Index := omap evStarted tr.
Definition completed (tr : list Event) : list Index := omap evCompleted tr.
Definition persisted (tr : list Event) : list SnapshotInfo := omap evPersisted tr.
Definition deletionSets (tr : list Event) : list (gset MessageID) := omap evDeletionSet tr.
Definition outerEvents (tr : list Event) : list Event := filter (λ e, evOuter e = true) tr.

(** The indexes [from], [from+1], ..., [from+len-1], last one first. *)
Definition indexesDown (from len : Z) : list Index := reverse (seqZ from len).

(** The invariant of the retention state. *)
Definition retention_ok (info : SnapshotInfo) : Prop :=
  PruningIndex info <= EntryPointIndex info <= SnapshotIndex info.

(** The fields of a retention state are [uint32] values. *)
Definition info_wf (info : SnapshotInfo) : Prop :=
  is_index (SnapshotIndex info) ∧ is_index (EntryPointIndex info) ∧
  is_index (PruningIndex info).

(** The candidates of [pruneUnconfirmedMessages]: the unconfirmed message IDs
    of the index whose metadata is still there and still unconfirmed. *)
Definition stillUnconfirmed (s : State) (id : MessageID) : bool :=
  match metadata s !! id with
  | Some meta => negb (IsConfirmed meta)
  | None => false
  end.

Definition unconfirmedCandidates (s : State) (index : Index) : gset MessageID :=
  list_to_set (filter (λ id, stillUnconfirmed s id = true)
                 (default [] (unconfirmed s !! index))).

(** ** The package [snapshot] *)

Section Pruning.

(** [SolidEntryPointCheckThresholdPast] is declared in another file of the
    package; the spec calls it [PastThreshold]. *)
Variable SolidEntryPointCheckThresholdPast : Index.

(** [utxo.PruneMilestoneIndex] can fail with a storage error; whether it
    does is decided by the ledger storage. *)
Variable utxoFailure : Index → State → option error.

(** [forEachSolidEntryPoint] is declared in another file of the package.
    It is given by the pairs it hands to its consumer, in order, and by
    the error it returns. *)
Variable forEachSolidEntryPoint :
  Index → AbortSignal → State → list (MessageID * Index) * option error.

(** [dag.TraverseParents]: start message, condition, consumer, callback for
    missing parents, callback for solid entry points, whether solid entry
    points are traversed, abort signal; the consumer works on the set it
    captures. *)
Variable TraverseParents :
  State → MessageID →
  (Metadata → bool * option error) →
  (Metadata → gset MessageID → gset MessageID * option error) →
  (MessageID → option error) →
  option (MessageID → unit) →
  bool →
  option AbortSignal →
  gset MessageID → gset MessageID * option error.

(** Modelled from the spec: [utxo.PruneMilestoneIndex] is missing; it
    deletes the ledger-state diff of the index or fails with a storage
    error ([pruneLedgerDiff]). *)
Definition PruneMilestoneIndex (index : Index) : M (option error) :=
  λ s, match utxoFailure index s with
       | Some e => (Some e, s)
       | None => (None, set_ledgerDiffs (ledgerDiffs s ∖ {[index]}) s)
       end.

(** [setIsPruning] (lines 23-27). *)
Definition setIsPruning (value : bool) : M unit :=
  modify (λ s, set_trace (EvIsPruning value :: trace s) (set_isPruning value s)).

(** [pruneMessages] (lines 77-105): the body of the [range] loop, then the
    function. *)
Definition pruneMessage (messageIDToDelete : MessageID) : M unit :=
  cachedMsg <- GetCachedMessageOrNil messageIDToDelete ;;
  match cachedMsg with
  | None => ret tt
  | Some msg =>
      DeleteChild (GetParent1MessageID msg) (GetMessageID msg) ;;
      DeleteChild (GetParent2MessageID msg) (GetMessageID msg) ;;
      DeleteChildren (GetMessageID msg) ;;
      match CheckIfIndexation msg with
      | Some indexationPayload => DeleteIndexation indexationPayload (GetMessageID msg)
      | None => ret tt
      end ;;
      DeleteMessage (GetMessageID msg)
  end.

Definition pruneMessages (messageIDsToDeleteMap : gset MessageID) : M Z :=
  record (EvPruneMessages messageIDsToDeleteMap) ;;
  forEach pruneMessage (elements messageIDsToDeleteMap) ;;
  ret (Z.of_nat (size messageIDsToDeleteMap)).

(** [pruneUnconfirmedMessages] (lines 30-61): the body of the loop over the
    unconfirmed message IDs, then the function. *)
Definition checkUnconfirmed (messageIDsToDeleteMap : gset MessageID)
    (messageID : MessageID) : M (gset MessageID) :=
  if decide (messageID ∈ messageIDsToDeleteMap) then ret messageIDsToDeleteMap
  else
    cachedMsgMeta <- GetCachedMessageMetadataOrNil messageID ;;
    match cachedMsgMeta with
    | None => ret messageIDsToDeleteMap
    | Some meta =>
        if IsConfirmed meta then ret messageIDsToDeleteMap
        else ret ({[messageID]} ∪ messageIDsToDeleteMap)
    end.

Definition pruneUnconfirmedMessages (targetIndex : Index) : M (Z * Z) :=
  ids <- GetUnconfirmedMessageIDs targetIndex ;;
  messageIDsToDeleteMap <- foldM checkUnconfirmed ids ∅ ;;
  msgCountDeleted <- pruneMessages messageIDsToDeleteMap ;;
  DeleteUnconfirmedMessages targetIndex ;;
  ret (msgCountDeleted, Z.of_nat (size messageIDsToDeleteMap)).

(** [pruneMilestone] (lines 64-74). *)
Definition pruneMilestone (milestoneIndex : Index) : M (option error) :=
  err <- PruneMilestoneIndex milestoneIndex ;;
  match err with
  | Some e => ret (Some e)
  | None => DeleteMilestone milestoneIndex ;; ret None
  end.

(** The call of [forEachSolidEntryPoint]: the consumer runs on each pair
    until it asks to stop. *)
Fixpoint feedSolidEntryPoints (consumer : MessageID → Index → M bool)
    (seps : list (MessageID * Index)) : M unit :=
  match seps with
  | [] => ret tt
  | (id, index) :: seps' =>
      continue <- consumer id index ;;
      if continue then feedSolidEntryPoints consumer seps' else ret tt
  end.

Definition callForEachSolidEntryPoint (targetIndex : Index) (abortSignal : AbortSignal)
    (consumer : MessageID → Index → M bool) : M (option error) :=
  λ s, let walk := forEachSolidEntryPoint targetIndex abortSignal s in
       (walk.2, (feedSolidEntryPoints consumer walk.1 s).2).

(** The call of [dag.TraverseParents] in the loop (lines 180-203), with its
    four callbacks. *)
Definition traverseMilestoneCone (start : MessageID) : M (gset MessageID * option error) :=
  gets (λ s,
    TraverseParents s start
      (λ cachedMsgMeta, (true, None))
      (λ cachedMsgMeta messageIDsToDeleteMap,
         ({[metaMessageID cachedMsgMeta]} ∪ messageIDsToDeleteMap, None))
      (λ parentMessageID, None)
      None
      true
      None
      ∅).

(** How the [for] loop of [pruneDatabase] ends. *)
Inductive LoopExit : Type :=
| LoopDone
| LoopReturn (err : error)
| LoopOutOfFuel.

(** One iteration of the loop after its abort check (lines 168-224); the
    result is the retention state the next iteration starts from. *)
Definition pruneIteration (milestoneIndex : Index) (snapshotInfo : SnapshotInfo)
    : M SnapshotInfo :=
  Infof (LogPruningMilestone milestoneIndex) ;;
  counts <- pruneUnconfirmedMessages milestoneIndex ;;
  cachedMs <- GetCachedMilestoneOrNil milestoneIndex ;;
  match cachedMs with
  | None =>
      Warnf (LogMilestoneNotFound milestoneIndex) ;;
      ret snapshotInfo
  | Some ms =>
      cone <- traverseMilestoneCone (msMessageID ms) ;;
      match cone.2 with
      | Some err =>
          Warnf (LogTraverseFailed milestoneIndex err) ;;
          ret snapshotInfo
      | None =>
          let messageIDsToDeleteMap := cone.1 in
          err <- pruneMilestone milestoneIndex ;;
          match err with
          | Some e => Warnf (LogPruneMilestoneFailed e)
          | None => ret tt
          end ;;
          let msgCountChecked := counts.2 + Z.of_nat (size messageIDsToDeleteMap) in
          deleted <- pruneMessages messageIDsToDeleteMap ;;
          let txCountDeleted := counts.1 + deleted in
          let snapshotInfo := withPruningIndex milestoneIndex snapshotInfo in
          SetSnapshotInfo snapshotInfo ;;
          Infof (LogPruned milestoneIndex txCountDeleted msgCountChecked) ;;
          TriggerPruningMilestoneIndexChanged milestoneIndex ;;
          ret snapshotInfo
      end
  end.

(** The [for] loop (lines 160-225).  [fuel] bounds the number of
    iterations; [pruneDatabaseRun] gives it [targetIndex - PruningIndex], the
    number of indexes from [PruningIndex + 1] to [targetIndex]. *)
Fixpoint pruneLoop (fuel : nat) (milestoneIndex targetIndex : Index)
    (abortSignal : AbortSignal) (snapshotInfo : SnapshotInfo) : M LoopExit :=
  if negb (milestoneIndex <=? targetIndex) then ret LoopDone
  else
    match fuel with
    | O => ret LoopOutOfFuel
    | S fuel' =>
        if abortSignal milestoneIndex then ret (LoopReturn ErrPruningAborted)
        else
          snapshotInfo' <- pruneIteration milestoneIndex snapshotInfo ;;
          pruneLoop fuel' (idx_add milestoneIndex 1) targetIndex abortSignal snapshotInfo'
    end.

(** [pruneDatabase] after its precondition checks (lines 137-229), without
    the deferred [setIsPruning(false)]. *)
Definition pruneDatabaseRun (targetIndex : Index) (abortSignal : AbortSignal)
    (snapshotInfo : SnapshotInfo) : M Result :=
  WriteLockSolidEntryPoints ;;
  ResetSolidEntryPoints ;;
  err <- callForEachSolidEntryPoint targetIndex abortSignal
           (λ solidEntryPointMessageID index,
              SolidEntryPointsAdd solidEntryPointMessageID index ;; ret true) ;;
  StoreSolidEntryPoints ;;
  WriteUnlockSolidEntryPoints ;;
  match err with
  | Some e => ret (Returned (Some e))
  | None =>
      let snapshotInfo := withEntryPointIndex targetIndex snapshotInfo in
      SetSnapshotInfo snapshotInfo ;;
      pruneUnconfirmedMessages (PruningIndex snapshotInfo) ;;
      exit <- pruneLoop (Z.to_nat (targetIndex - PruningIndex snapshotInfo))
                (idx_add (PruningIndex snapshotInfo) 1) targetIndex abortSignal
                snapshotInfo ;;
      match exit with
      | LoopReturn e => ret (Returned (Some e))
      | LoopOutOfFuel => ret Diverged
      | LoopDone => RunGarbageCollection ;; ret (Returned None)
      end
  end.

(** The clamp of lines 119-122. *)
Definition targetIndexMax (snapshotInfo : SnapshotInfo) : Index :=
  idx_sub (idx_sub (idx_sub (SnapshotIndex snapshotInfo) SolidEntryPointCheckThresholdPast)
             AdditionalPruningThreshold) 1.

Definition clampTargetIndex (snapshotInfo : SnapshotInfo) (targetIndex : Index) : Index :=
  if targetIndex >? targetIndexMax snapshotInfo then targetIndexMax snapshotInfo
  else targetIndex.

(** [pruneDatabase] (lines 107-230). *)
Definition pruneDatabase (targetIndex : Index) (abortSignal : AbortSignal) : M Result :=
  snapshotInfo <- GetSnapshotInfo ;;
  match snapshotInfo with
  | None => ret (Panicked "No snapshotInfo found!")
  | Some snapshotInfo =>
      let minimumIndex :=
        idx_add (idx_add SolidEntryPointCheckThresholdPast AdditionalPruningThreshold) 1 in
      if SnapshotIndex snapshotInfo <? minimumIndex then
        ret (Returned (Some (Wrapf ErrNotEnoughHistory minimumIndex targetIndex)))
      else
        let targetIndex := clampTargetIndex snapshotInfo targetIndex in
        if PruningIndex snapshotInfo >=? targetIndex then
          ret (Returned (Some (Wrapf ErrNoPruningNeeded (PruningIndex snapshotInfo) targetIndex)))
        else
          let minimumIndex :=
            idx_add (idx_add (EntryPointIndex snapshotInfo) AdditionalPruningThreshold) 1 in
          if minimumIndex >? targetIndex then
            ret (Returned (Some (Wrapf ErrNotEnoughHistory minimumIndex targetIndex)))
          else
            setIsPruning true ;;
            result <- pruneDatabaseRun targetIndex abortSignal snapshotInfo ;;
            setIsPruning false ;;
            ret result
  end.

(** *** Notions used to state the properties of [pruneDatabase] *)

(** The three precondition checks of [pruneDatabase] (lines 114-132) let the
    request through. *)
Definition passesChecks (snapshotInfo : SnapshotInfo) (targetIndex : Index) : Prop :=
  idx_add (idx_add SolidEntryPointCheckThresholdPast AdditionalPruningThreshold) 1
    <= SnapshotIndex snapshotInfo ∧
  PruningIndex snapshotInfo < clampTargetIndex snapshotInfo targetIndex ∧
  idx_add (idx_add (EntryPointIndex snapshotInfo) AdditionalPruningThreshold) 1
    <= clampTargetIndex snapshotInfo targetIndex.

(** The state in which [pruneDatabase] calls [forEachSolidEntryPoint]: the
    pruning flag is set and the in-memory boundary set has been reset. *)
Definition stateAtWalk (s : State) : State :=
  (ResetSolidEntryPoints (setIsPruning true s).2).2.

(** What the walker does in a run on [s]. *)
Definition walkOf (targetIndex : Index) (abortSignal : AbortSignal) (s : State)
    : list (MessageID * Index) * option error :=
  forEachSolidEntryPoint targetIndex abortSignal (stateAtWalk s).

(** The iteration for a milestone index is skipped: the milestone is not
    stored in [s], or the traversal of its cone fails in whatever state it is
    run. *)
Definition skips (milestoneIndex : Index) (s : State) : Prop :=
  milestones s !! milestoneIndex = None ∨
  ∃ ms, milestones s !! milestoneIndex = Some ms ∧
        ∀ s', (traverseMilestoneCone (msMessageID ms) s').1.2 ≠ None.


(** What one iteration of the loop leaves behind: it started and logged its
    index, it touched no pruning flag and no boundary set, no milestone
    record other than its own, and either it was skipped (nothing persisted)
    or it completed and persisted its index as the pruning index. *)
Definition IterationPost (milestoneIndex : Index) (info : SnapshotInfo) (s : State)
    (r : SnapshotInfo * State) : Prop :=
  ∃ evs,
    trace r.2 = evs ++ trace s ∧
    isPruning r.2 = isPruning s ∧
    solidEntryPoints r.2 = solidEntryPoints s ∧
    storedSolidEntryPoints r.2 = storedSolidEntryPoints s ∧
    (∀ j, j ≠ milestoneIndex → milestones r.2 !! j = milestones s !! j) ∧
    started evs = [milestoneIndex] ∧
    outerEvents evs = [] ∧
    ((r.1 = info ∧ snapshotInfo r.2 = snapshotInfo s ∧
      completed evs = [] ∧ persisted evs = []) ∨
     (r.1 = withPruningIndex milestoneIndex info ∧
      snapshotInfo r.2 = Some (withPruningIndex milestoneIndex info) ∧
      completed evs = [milestoneIndex] ∧
      persisted evs = [withPruningIndex milestoneIndex info] ∧
      ¬ skips milestoneIndex s)).

(** What the loop leaves behind when it ran the iterations for the indexes
    from [from] up to, and without, [stop]. *)
Definition LoopPost (from stop : Index) (info : SnapshotInfo) (s s' : State) : Prop :=
  ∃ evs,
    trace s' = evs ++ trace s ∧
    isPruning s' = isPruning s ∧
    solidEntryPoints s' = solidEntryPoints s ∧
    storedSolidEntryPoints s' = storedSolidEntryPoints s ∧
    (∀ j, ¬ (from <= j < stop) → milestones s' !! j = milestones s !! j) ∧
    started evs = indexesDown from (stop - from) ∧
    outerEvents evs = [] ∧
    Forall (λ j, from <= j < stop) (completed evs) ∧
    persisted evs = map (λ j, withPruningIndex j info) (completed evs) ∧
    snapshotInfo s' = match completed evs with
                      | [] => snapshotInfo s
                      | j :: _ => Some (withPruningIndex j info)
                      end ∧
    ((∀ j, from <= j < stop → skips j s) → completed evs = []).

(** The boundary set a run computes: the pairs the walker hands over. *)
Definition walkedSolidEntryPoints (targetIndex : Index) (abortSignal : AbortSignal)
    (s : State) : gset (MessageID * Index) :=
  list_to_set (walkOf targetIndex abortSignal s).1.

(** The threshold is a [uint32] constant and the minimum index
    [SolidEntryPointCheckThresholdPast+AdditionalPruningThreshold+1] fits. *)
Definition threshold_ok : Prop :=
  0 <= SolidEntryPointCheckThresholdPast ∧
  SolidEntryPointCheckThresholdPast + AdditionalPruningThreshold + 1 < index_modulus.

(** What a run of [pruneDatabase] leaves behind when it passed the checks,
    the walker succeeded and the loop ran the iterations below [stop]
    ([stop] is the index at which the abort signal was seen, or the one after
    the target index). *)
Definition RunPost (info : SnapshotInfo) (targetIndex stop : Index)
    (abortSignal : AbortSignal) (s : State) (r : Result * State) : Prop :=
  let seps := walkedSolidEntryPoints targetIndex abortSignal s in
  let entered := withEntryPointIndex targetIndex info in
  r.1 = Returned (if decide (stop <= targetIndex) then Some ErrPruningAborted else None) ∧
  isPruning r.2 = false ∧
  solidEntryPoints r.2 = seps ∧
  storedSolidEntryPoints r.2 = seps ∧
  ∃ evs,
    trace r.2 =
      EvIsPruning false
      :: (if decide (stop <= targetIndex) then [] else [EvRunGarbageCollection])
      ++ evs
      ++ [EvPruneMessages (unconfirmedCandidates s (PruningIndex info));
          EvSetSnapshotInfo entered;
          EvStoreSolidEntryPoints seps;
          EvIsPruning true]
      ++ trace s ∧
    started evs = indexesDown (PruningIndex info + 1) (stop - (PruningIndex info + 1)) ∧
    outerEvents evs = [] ∧
    Forall (λ j, PruningIndex info < j < stop) (completed evs) ∧
    persisted evs = map (λ j, withPruningIndex j entered) (completed evs) ∧
    snapshotInfo r.2 = Some match completed evs with
                            | [] => entered
                            | j :: _ => withPruningIndex j entered
                            end ∧
    ((∀ j, PruningIndex info < j < stop → skips j s) → completed evs = []).

(** The state in which the pruning of a run starts: the boundary set of the
    run is stored and the entry point index is persisted. *)
Definition stateAfterBoundary (info : SnapshotInfo) (targetIndex : Index)
    (abortSignal : AbortSignal) (s : State) : State :=
  (SetSnapshotInfo (withEntryPointIndex targetIndex info)
     (StoreSolidEntryPoints
        (set_solidEntryPoints (walkedSolidEntryPoints targetIndex abortSignal s)
           (stateAtWalk s))).2).2.

(** The milestone of an index is stored and the traversal of its cone
    succeeds in whatever state it is run. *)
Definition prunable (milestoneIndex : Index) (s : State) : Prop :=
  ∃ ms, milestones s !! milestoneIndex = Some ms ∧
        ∀ s', (traverseMilestoneCone (msMessageID ms) s').1.2 = None.

End Pruning.

(** ** A parent traverser *)

(** Modelled from the spec: [dag.TraverseParents] is missing.  It walks the
    parent edges from the start message: a boundary vertex is left out unless
    boundary vertices are included, a vertex without metadata goes to the
    callback for missing parents, the parents of a vertex are walked when the
    predicate lets them, and then the vertex goes to the consumer.  [fuel]
    bounds the depth of the walk. *)
Fixpoint traverseFrom (fuel : nat) (s : State)
    (condition : Metadata → bool * option error)
    (consumer : Metadata → gset MessageID → gset MessageID * option error)
    (onMissingParent : MessageID → option error)
    (traverseSolidEntryPoints : bool)
    (id : MessageID) (acc : gset MessageID * gset MessageID)
    : (gset MessageID * gset MessageID) * option error :=
  match fuel with
  | O => (acc, Some (ErrExternal 0))
  | S fuel' =>
      if decide (id ∈ acc.1) then (acc, None)
      else if SolidEntryPointsContain s id && negb traverseSolidEntryPoints
      then (({[id]} ∪ acc.1, acc.2), None)
      else
        match metadata s !! id with
        | None => (({[id]} ∪ acc.1, acc.2), onMissingParent id)
        | Some meta =>
            let c := condition meta in
            match c.2 with
            | Some e => (acc, Some e)
            | None =>
                if negb c.1 then (({[id]} ∪ acc.1, acc.2), None)
                else
                  let r1 := traverseFrom fuel' s condition consumer onMissingParent
                              traverseSolidEntryPoints (metaParent1 meta) acc in
                  match r1.2 with
                  | Some e => r1
                  | None =>
                      let r2 := traverseFrom fuel' s condition consumer onMissingParent
                                  traverseSolidEntryPoints (metaParent2 meta) r1.1 in
                      match r2.2 with
                      | Some e => r2
                      | None =>
                          let k := consumer meta r2.1.2 in
                          (({[id]} ∪ r2.1.1, k.1), k.2)
                      end
                  end
            end
        end
  end.

Definition TraverseParentsModel (s : State) (start : MessageID)
    (condition : Metadata → bool * option error)
    (consumer : Metadata → gset MessageID → gset MessageID * option error)
    (onMissingParent : MessageID → option error)
    (onSolidEntryPoint : option (MessageID → unit))
    (traverseSolidEntryPoints : bool)
    (abortSignal : option AbortSignal)
    (captured : gset MessageID) : gset MessageID * option error :=
  let r := traverseFrom (S (size (metadata s))) s condition consumer onMissingParent
             traverseSolidEntryPoints start (∅, captured) in
  (r.1.2, r.2).

(** ** Concrete runs *)

Definition neverAborted : AbortSignal := λ _, false.
Definition abortedFrom (k : Index) : AbortSignal := λ i, k <=? i.
Definition noUtxoFailure : Index → State → option error := λ _ _, None.
Definition walkNothing : Index → AbortSignal → State → list (MessageID * Index) * option error :=
  λ _ _ _, ([], None).

(** A traverser that always fails. *)
Definition TraverseParentsFailing (s : State) (start : MessageID)
    (condition : Metadata → bool * option error)
    (consumer : Metadata → gset MessageID → gset MessageID * option error)
    (onMissingParent : MessageID → option error)
    (onSolidEntryPoint : option (MessageID → unit))
    (traverseSolidEntryPoints : bool)
    (abortSignal : option AbortSignal)
    (captured : gset MessageID) : gset MessageID * option error :=
  (captured, Some (ErrExternal 2)).

(** An empty database with the given retention state. *)
Definition emptyState (info : SnapshotInfo) : State :=
  mkState (Some info) false ∅ ∅ ∅ ∅ ∅ ∅ ∅ ∅ ∅ [].

(** Scenario A of the spec. *)
Definition scenarioA : State := emptyState (mkSnapshotInfo 1000 0 0).

(** A small database: snapshot at 152, nothing pruned yet, the boundary set
    [old] persisted by an earlier run, and one milestone, at index 51, whose
    message [m51] has two parents that are not stored. *)
Definition m51 : Message := mkMessage "m51" "p1" "p2" None.
Definition m51meta : Metadata := mkMetadata "m51" "p1" "p2" true.

Definition smallState : State :=
  mkState (Some (mkSnapshotInfo 152 0 0)) false
    {[("old", 0)]} {[("old", 0)]}
    {["m51" := m51]} {["m51" := m51meta]}
    ∅ ∅ ∅
    {[51 := mkMilestone 51 "m51"]}
    {[51]} [].

(** A walker that finds the milestone message of the target index. *)
Definition walkTarget : Index → AbortSignal → State → list (MessageID * Index) * option error :=
  λ targetIndex _ _, ([("m51", targetIndex)], None).

(** A walker that fails after it handed one pair to its consumer. *)
Definition walkFailing : Index → AbortSignal → State → list (MessageID * Index) * option error :=
  λ targetIndex _ _, ([("m51", targetIndex)], Some (ErrExternal 1)).


(** A traverser that finds no stored vertex. *)
Definition TraverseParentsNothing (s : State) (start : MessageID)
    (condition : Metadata → bool * option error)
    (consumer : Metadata → gset MessageID → gset MessageID * option error)
    (onMissingParent : MessageID → option error)
    (onSolidEntryPoint : option (MessageID → unit))
    (traverseSolidEntryPoints : bool)
    (abortSignal : option AbortSignal)
    (captured : gset MessageID) : gset MessageID * option error :=
  (captured, onMissingParent start).

(** A ledger storage that fails for every index. *)
Definition allUtxoFailure : Index → State → option error := λ _ _, Some (ErrExternal 3).

(** A database with the milestones 1 to 51 and no message, snapshot at 152. *)
Definition milestoneState : State :=
  mkState (Some (mkSnapshotInfo 152 0 0)) false ∅ ∅ ∅ ∅ ∅ ∅ ∅
    (list_to_map (map (λ j, (j, mkMilestone j "gone")) (seqZ 1 51)))
    ∅ [].

(** A retention state at the end of the index range: the entry point index
    is so large that adding the threshold wraps around. *)
Definition lateInfo : SnapshotInfo := mkSnapshotInfo 4294967295 4294967290 0.

(** ** The message store *)

(** A message is stored under its own identifier. *)
Definition well_keyed (s : State) : Prop :=
  ∀ id msg, messages s !! id = Some msg → GetMessageID msg = id.

(** The children recorded for a message. *)
Definition childrenOf (s : State) (id : MessageID) : gset MessageID :=
  default ∅ (children s !! id).

(** A small tangle: message [a] (parents [g1], [g2], an indexation payload
    under the key [tag]) and its child [b]; [a] is unconfirmed, [b] is
    confirmed; [c] has metadata but no message; the unconfirmed index of
    milestone 7 lists [a] twice, [b], [c] and an unknown [d]. *)
Definition tangleState : State :=
  mkState (Some (mkSnapshotInfo 1000 0 0)) false ∅ ∅
    {["a" := mkMessage "a" "g1" "g2" (Some "tag");
      "b" := mkMessage "b" "a" "g2" None]}
    {["a" := mkMetadata "a" "g1" "g2" false;
      "b" := mkMetadata "b" "a" "g2" true;
      "c" := mkMetadata "c" "a" "b" false]}
    {["g1" := {["a"]}; "g2" := {["a"; "b"]}; "a" := {["b"]}]}
    {[("tag", "a")]}
    {[7 := ["a"; "a"; "b"; "c"; "d"]]}
    {[7 := mkMilestone 7 "b"]}
    {[7]} [].

(** ** Frames

    [Frame s s' evs]: going from [s] to [s'] changed no retention state, no
    pruning flag, no boundary set, no milestone and no ledger diff, and
    added the events [evs] to the history. *)
Record Frame (s s' : State) (evs : list Event) : Prop := mkFrame {
  frame_snapshotInfo : snapshotInfo s' = snapshotInfo s;
  frame_isPruning : isPruning s' = isPruning s;
  frame_solidEntryPoints : solidEntryPoints s' = solidEntryPoints s;
  frame_storedSolidEntryPoints : storedSolidEntryPoints s' = storedSolidEntryPoints s;
  frame_milestones : milestones s' = milestones s;
  frame_ledgerDiffs : ledgerDiffs s' = ledgerDiffs s;
  frame_trace : trace s' = evs ++ trace s
}.

(** [FrameM j s s' evs]: as [Frame], but the milestone record of index [j]
    and the ledger diffs may have changed. *)
Record FrameM (j : Index) (s s' : State) (evs : list Event) : Prop := mkFrameM {
  fm_snapshotInfo : snapshotInfo s' = snapshotInfo s;
  fm_isPruning : isPruning s' = isPruning s;
  fm_solidEntryPoints : solidEntryPoints s' = solidEntryPoints s;
  fm_storedSolidEntryPoints : storedSolidEntryPoints s' = storedSolidEntryPoints s;
  fm_milestones : ∀ j', j' ≠ j → milestones s' !! j' = milestones s !! j';
  fm_trace : trace s' = evs ++ trace s
}.

(** * Properties *)

(** ** Index arithmetic *)

Lemma wrap32_small (z : Z) : is_index z → wrap32 z = z.
Proof. unfold is_index, wrap32. intros H. apply Z.mod_small. exact H. Qed.


Lemma idx_add_small (a b : Z) : is_index (a + b) → idx_add a b = a + b.
Proof. apply wrap32_small. Qed.

Lemma idx_sub_small (a b : Z) : is_index (a - b) → idx_sub a b = a - b.
Proof. apply wrap32_small. Qed.


(** ** The monad *)

Lemma bind_apply {A B : Type} (m : M A) (f : A → M B) (s : State) :
  bind m f s = f (m s).1 (m s).2.
Proof. reflexivity. Qed.

Lemma Frame_refl (s : State) : Frame s s [].
Proof. by constructor. Qed.

Lemma Frame_trans (s1 s2 s3 : State) (e1 e2 : list Event) :
  Frame s1 s2 e1 → Frame s2 s3 e2 → Frame s1 s3 (e2 ++ e1).
Proof.
  intros [] []. constructor; try congruence.
  rewrite <- app_assoc. congruence.
Qed.

(** ** [pruneMessages] *)

Lemma pruneMessage_frame (id : MessageID) (s : State) :
  Frame s (pruneMessage id s).2 [].
Proof.
  unfold pruneMessage. rewrite bind_apply. simpl.
  destruct (messages s !! id) as [msg|]; [|apply Frame_refl].
  destruct (CheckIfIndexation msg); by constructor.
Qed.

Lemma forEach_pruneMessage_frame (l : list MessageID) (s : State) :
  Frame s (forEach pruneMessage l s).2 [].
Proof.
  revert s. induction l as [|id l IH]; intros s; simpl.
  - apply Frame_refl.
  - rewrite bind_apply.
    exact (Frame_trans _ _ _ [] [] (pruneMessage_frame id s) (IH _)).
Qed.

Lemma pruneMessages_count (ids : gset MessageID) (s : State) :
  (pruneMessages ids s).1 = Z.of_nat (size ids).
Proof. reflexivity. Qed.

Lemma pruneMessages_frame (ids : gset MessageID) (s : State) :
  Frame s (pruneMessages ids s).2 [EvPruneMessages ids].
Proof.
  unfold pruneMessages. rewrite !bind_apply. simpl.
  eapply (Frame_trans _ _ _ [EvPruneMessages ids] []);
    [|apply forEach_pruneMessage_frame].
  by constructor.
Qed.

Lemma forEach_pruneMessage_absent (l : list MessageID) (s : State) :
  (∀ id, id ∈ l → messages s !! id = None) →
  forEach pruneMessage l s = (tt, s).
Proof.
  induction l as [|id l IH]; intros Habs; simpl; [done|].
  rewrite bind_apply.
  assert (pruneMessage id s = (tt, s)) as ->.
  { unfold pruneMessage. rewrite bind_apply. simpl.
    rewrite (Habs id) by apply list_elem_of_here. done. }
  simpl. apply IH. intros id' Hin. apply Habs. by apply list_elem_of_further.
Qed.

(** ** [pruneUnconfirmedMessages] *)

Lemma checkUnconfirmed_apply (acc : gset MessageID) (id : MessageID) (s : State) :
  checkUnconfirmed acc id s =
    (if stillUnconfirmed s id then {[id]} ∪ acc else acc, s).
Proof.
  unfold checkUnconfirmed, stillUnconfirmed.
  destruct (decide (id ∈ acc)) as [Hin|Hin].
  - unfold ret. f_equal.
    destruct (metadata s !! id) as [meta|]; [|done].
    destruct (IsConfirmed meta); simpl; [done|]. set_solver.
  - rewrite bind_apply. simpl.
    destruct (metadata s !! id) as [meta|]; [|done].
    by destruct (IsConfirmed meta).
Qed.

Lemma foldM_checkUnconfirmed (l : list MessageID) (acc : gset MessageID) (s : State) :
  foldM checkUnconfirmed l acc s =
    (list_to_set (filter (λ id, stillUnconfirmed s id = true) l) ∪ acc, s).
Proof.
  revert acc. induction l as [|id l IH]; intros acc; simpl.
  - unfold ret. f_equal. set_solver.
  - rewrite bind_apply, checkUnconfirmed_apply. simpl. rewrite IH. f_equal.
    destruct (stillUnconfirmed s id) eqn:Hid.
    + rewrite filter_cons_True by done. set_solver.
    + rewrite filter_cons_False by (rewrite Hid; done). done.
Qed.

Lemma pruneUnconfirmedMessages_counts (index : Index) (s : State) :
  (pruneUnconfirmedMessages index s).1 =
    (Z.of_nat (size (unconfirmedCandidates s index)),
     Z.of_nat (size (unconfirmedCandidates s index))).
Proof.
  unfold pruneUnconfirmedMessages, unconfirmedCandidates.
  rewrite !bind_apply. simpl.
  rewrite foldM_checkUnconfirmed. simpl.
  rewrite (right_id_L ∅ (∪)). done.
Qed.

Lemma pruneUnconfirmedMessages_frame (index : Index) (s : State) :
  Frame s (pruneUnconfirmedMessages index s).2
    [EvPruneMessages (unconfirmedCandidates s index)].
Proof.
  unfold pruneUnconfirmedMessages, unconfirmedCandidates.
  rewrite !bind_apply. simpl.
  rewrite foldM_checkUnconfirmed. simpl.
  rewrite (right_id_L ∅ (∪)).
  set (ids := list_to_set _).
  destruct (pruneMessages_frame ids s). by constructor.
Qed.

(** C8.  Calling [pruneMessages] on identifiers that are all absent from the
    message store changes nothing: every identifier is skipped, the state
    after the call is the state before it with only the call recorded in the
    history, there is no error to return, and the returned count is the size
    of the set, as for any other store. *)
Theorem pruneMessages_absent_noop (ids : gset MessageID) (s : State) :
  (∀ id, id ∈ ids → messages s !! id = None) →
  pruneMessages ids s = (Z.of_nat (size ids), (record (EvPruneMessages ids) s).2) ∧
  ∀ s', (pruneMessages ids s').1 = (pruneMessages ids s).1.
Proof.
  intros Habs. split; [|done].
  unfold pruneMessages. rewrite !bind_apply.
  rewrite forEach_pruneMessage_absent; [done|].
  intros id Hin. simpl. apply Habs. by apply elem_of_elements.
Qed.

(** C9.  [pruneMessages] returns the size of the set it is given, whatever
    the store holds; so both counts of [pruneUnconfirmedMessages] are the
    size of the set of candidates that are still stored and unconfirmed. *)
Theorem pruneMessages_returns_size :
  (∀ (ids : gset MessageID) (s : State),
     (pruneMessages ids s).1 = Z.of_nat (size ids)) ∧
  (∀ (index : Index) (s : State),
     (pruneUnconfirmedMessages index s).1 =
       (Z.of_nat (size (unconfirmedCandidates s index)),
        Z.of_nat (size (unconfirmedCandidates s index))) ∧
     deletionSets (trace (pruneUnconfirmedMessages index s).2) =
       unconfirmedCandidates s index :: deletionSets (trace s)).
Proof.
  split; [apply pruneMessages_count|].
  intros index s. split; [apply pruneUnconfirmedMessages_counts|].
  by rewrite (frame_trace _ _ _ (pruneUnconfirmedMessages_frame index s)).
Qed.

(** ** The loop of [pruneDatabase] *)

Section PruningProofs.

Variable SolidEntryPointCheckThresholdPast : Index.
Variable utxoFailure : Index → State → option error.
Variable forEachSolidEntryPoint :
  Index → AbortSignal → State → list (MessageID * Index) * option error.
Variable TraverseParents :
  State → MessageID →
  (Metadata → bool * option error) →
  (Metadata → gset MessageID → gset MessageID * option error) →
  (MessageID → option error) →
  option (MessageID → unit) →
  bool →
  option AbortSignal →
  gset MessageID → gset MessageID * option error.

Local Abbreviation pruneMilestone' := (pruneMilestone utxoFailure).
Local Abbreviation pruneIteration' := (pruneIteration utxoFailure TraverseParents).
Local Abbreviation pruneLoop' := (pruneLoop utxoFailure TraverseParents).
Local Abbreviation pruneDatabaseRun' :=
  (pruneDatabaseRun utxoFailure forEachSolidEntryPoint TraverseParents).
Local Abbreviation pruneDatabase' :=
  (pruneDatabase SolidEntryPointCheckThresholdPast utxoFailure
     forEachSolidEntryPoint TraverseParents).
Local Abbreviation passesChecks' := (passesChecks SolidEntryPointCheckThresholdPast).
Local Abbreviation clampTargetIndex' := (clampTargetIndex SolidEntryPointCheckThresholdPast).
Local Abbreviation walkOf' := (walkOf forEachSolidEntryPoint).
Local Abbreviation skips' := (skips TraverseParents).
Local Abbreviation IterationPost' := (IterationPost TraverseParents).
Local Abbreviation LoopPost' := (LoopPost TraverseParents).
Local Abbreviation RunPost' := (RunPost forEachSolidEntryPoint TraverseParents).
Local Abbreviation walkedSolidEntryPoints' := (walkedSolidEntryPoints forEachSolidEntryPoint).
Local Abbreviation targetIndexMax' := (targetIndexMax SolidEntryPointCheckThresholdPast).
Local Abbreviation threshold_ok' := (threshold_ok SolidEntryPointCheckThresholdPast).

Lemma Frame_FrameM (j : Index) (s s' : State) (evs : list Event) :
  Frame s s' evs → FrameM j s s' evs.
Proof. intros []. constructor; try done. intros. congruence. Qed.

Lemma FrameM_refl (j : Index) (s : State) : FrameM j s s [].
Proof. by constructor. Qed.

Lemma FrameM_trans (j : Index) (s1 s2 s3 : State) (e1 e2 : list Event) :
  FrameM j s1 s2 e1 → FrameM j s2 s3 e2 → FrameM j s1 s3 (e2 ++ e1).
Proof.
  intros [] []. constructor; try congruence.
  - intros j' Hj'. rewrite fm_milestones1 by done. auto.
  - rewrite <- app_assoc. congruence.
Qed.

Lemma FrameM_record (j : Index) (e : Event) (s : State) :
  FrameM j s (record e s).2 [e].
Proof. by constructor. Qed.

Lemma pruneMilestone_frame (j : Index) (s : State) :
  FrameM j s (pruneMilestone' j s).2 [].
Proof.
  unfold pruneMilestone, PruneMilestoneIndex. rewrite bind_apply.
  destruct (utxoFailure j s); simpl; constructor; try done.
  intros j' Hj'. simpl. by rewrite lookup_delete_ne.
Qed.

(** C7.  [pruneMilestone] deletes the ledger diff first.  When that fails,
    the error is returned as it is and nothing more is done: the milestone
    record is not deleted.  When it succeeds, the milestone record is deleted
    and [nil] is returned.  So [pruneMilestone] returns an error exactly when
    the deletion of the ledger diff does. *)
Theorem pruneMilestone_error_iff (milestoneIndex : Index) (s : State) :
  let diff := PruneMilestoneIndex utxoFailure milestoneIndex s in
  let r := pruneMilestone' milestoneIndex s in
  match diff.1 with
  | Some e => r = (Some e, diff.2) ∧ milestones r.2 = milestones s
  | None =>
      r = (None, (DeleteMilestone milestoneIndex diff.2).2) ∧
      milestones r.2 = delete milestoneIndex (milestones s) ∧
      ledgerDiffs r.2 = ledgerDiffs s ∖ {[milestoneIndex]}
  end ∧
  (is_Some r.1 ↔ is_Some diff.1).
Proof.
  unfold pruneMilestone, PruneMilestoneIndex. rewrite bind_apply.
  destruct (utxoFailure milestoneIndex s) as [e|]; simpl; done.
Qed.

Lemma history_app (e1 e2 : list Event) :
  started (e1 ++ e2) = started e1 ++ started e2 ∧
  completed (e1 ++ e2) = completed e1 ++ completed e2 ∧
  persisted (e1 ++ e2) = persisted e1 ++ persisted e2 ∧
  outerEvents (e1 ++ e2) = outerEvents e1 ++ outerEvents e2.
Proof.
  unfold started, completed, persisted, outerEvents.
  rewrite !omap_app, filter_app. done.
Qed.

Lemma outerEvents_cons (e : Event) (l : list Event) :
  outerEvents (e :: l) = if evOuter e then e :: outerEvents l else outerEvents l.
Proof.
  unfold outerEvents. rewrite filter_cons.
  destruct (evOuter e); by simpl.
Qed.

Lemma traverseMilestoneCone_state (start : MessageID) (s : State) :
  (traverseMilestoneCone TraverseParents start s).2 = s.
Proof. reflexivity. Qed.

Lemma pruneIteration_post (j : Index) (info : SnapshotInfo) (s : State) :
  IterationPost' j info s (pruneIteration' j info s).
Proof.
  remember (pruneIteration' j info s) as r eqn:Hr.
  unfold pruneIteration in Hr.
  rewrite bind_apply in Hr.
  pose proof (FrameM_record j (EvLog (LogPruningMilestone j)) s) as F0.
  change (Infof (LogPruningMilestone j) s) with (record (EvLog (LogPruningMilestone j)) s) in Hr.
  set (s0 := (record (EvLog (LogPruningMilestone j)) s).2) in *.
  rewrite bind_apply in Hr.
  pose proof (Frame_FrameM j _ _ _ (pruneUnconfirmedMessages_frame j s0)) as F1.
  set (r1 := pruneUnconfirmedMessages j s0) in *.
  assert (milestones r1.2 = milestones s) as Hlook.
  { exact (frame_milestones _ _ _ (pruneUnconfirmedMessages_frame j s0)). }
  pose proof (FrameM_trans _ _ _ _ _ _ F0 F1) as F01.
  set (evs1 := [EvPruneMessages (unconfirmedCandidates s0 j)] ++ [EvLog (LogPruningMilestone j)]) in *.
  assert (started evs1 = [j] ∧ completed evs1 = [] ∧ persisted evs1 = [] ∧ outerEvents evs1 = [])
    as (Hst1 & Hco1 & Hpe1 & Hou1) by done.
  clearbody evs1 r1. clear F0 F1.
  rewrite bind_apply in Hr.
  change (GetCachedMilestoneOrNil j r1.2) with (milestones r1.2 !! j, r1.2) in Hr.
  cbn [fst snd] in Hr. rewrite Hlook in Hr.
  destruct (milestones s !! j) as [ms|] eqn:Hms.
  - rewrite bind_apply, traverseMilestoneCone_state in Hr.
    set (cone := (traverseMilestoneCone TraverseParents (msMessageID ms) r1.2).1) in *.
    destruct (cone.2) as [err|] eqn:Hcone.
    + (* the traversal failed *)
      subst r. destruct F01.
      exists (EvLog (LogTraverseFailed j err) :: evs1).
      rewrite outerEvents_cons. simpl.
      repeat split; try done.
      * by rewrite fm_trace0.
      * left. done.
    + (* the milestone is pruned *)
      rewrite bind_apply in Hr.
      pose proof (pruneMilestone_frame j r1.2) as F2.
      set (r2 := pruneMilestone' j r1.2) in *.
      pose proof (FrameM_trans _ _ _ _ _ _ F01 F2) as F02. clear F01 F2. clearbody r2.
      rewrite bind_apply in Hr.
      set (r3 := match r2.1 with
                 | Some e => Warnf (LogPruneMilestoneFailed e)
                 | None => ret ()
                 end r2.2) in *.
      assert (∃ evs3, FrameM j r2.2 r3.2 evs3 ∧ started evs3 = [] ∧ completed evs3 = []
                      ∧ persisted evs3 = [] ∧ outerEvents evs3 = []) as (evs3 & F3 & Hst3 & Hco3 & Hpe3 & Hou3).
      { subst r3. destruct (r2.1) as [e|].
        - exists [EvLog (LogPruneMilestoneFailed e)]. split; [apply FrameM_record|done].
        - exists []. split; [apply FrameM_refl|done]. }
      pose proof (FrameM_trans _ _ _ _ _ _ F02 F3) as F03. clear F02 F3. clearbody r3.
      rewrite bind_apply in Hr.
      pose proof (Frame_FrameM j _ _ _ (pruneMessages_frame cone.1 r3.2)) as F4.
      set (r4 := pruneMessages cone.1 r3.2) in *.
      pose proof (FrameM_trans _ _ _ _ _ _ F03 F4) as F04. clear F03 F4. clearbody r4.
      assert (¬ skips' j s) as Hnoskip.
      { intros [Hnone|(ms' & Hms' & Hfail)]; [congruence|].
        assert (ms' = ms) as -> by congruence.
        exact (Hfail r1.2 Hcone). }
      subst r. destruct F04.
      exists (EvPruningMilestoneIndexChanged j
                :: EvLog (LogPruned j (r1.1.1 + r4.1) (r1.1.2 + Z.of_nat (size cone.1)))
                :: EvSetSnapshotInfo (withPruningIndex j info)
                :: EvPruneMessages cone.1 :: evs3 ++ evs1).
      rewrite !outerEvents_cons. simpl.
      destruct (history_app evs3 evs1) as (-> & -> & -> & ->).
      rewrite Hst1, Hst3, Hco1, Hco3, Hpe1, Hpe3, Hou1, Hou3.
      repeat split; try done.
      * rewrite fm_trace0. reflexivity.
      * right. done.
  - (* the milestone is not stored *)
    subst r. destruct F01.
    exists (EvLog (LogMilestoneNotFound j) :: evs1).
    rewrite outerEvents_cons. simpl.
    repeat split; try done.
    + by rewrite fm_trace0.
    + left. done.
Qed.


Lemma indexesDown_step (from len : Z) :
  0 < len → indexesDown from len = indexesDown (from + 1) (len - 1) ++ [from].
Proof.
  intros Hlen. unfold indexesDown.
  rewrite (seqZ_cons from len) by done.
  rewrite reverse_cons. do 3 f_equal; lia.
Qed.

Lemma skips_lookup (j : Index) (s s' : State) :
  milestones s' !! j = milestones s !! j → skips' j s → skips' j s'.
Proof. unfold skips. intros ->. done. Qed.

Lemma LoopPost_nil (from : Index) (info : SnapshotInfo) (s : State) :
  LoopPost' from from info s s.
Proof.
  exists []. rewrite Z.sub_diag. repeat split; try done.
Qed.

Lemma pruneLoop_post (fuel : nat) :
  ∀ (from T : Index) (abortSignal : AbortSignal) (info : SnapshotInfo) (s : State)
    (stop : Index),
    Z.of_nat fuel = T + 1 - from → 0 <= from → T + 1 < index_modulus →
    from <= stop <= T + 1 →
    (∀ j, from <= j < stop → abortSignal j = false) →
    (stop <= T → abortSignal stop = true) →
    (pruneLoop' fuel from T abortSignal info s).1 =
      (if decide (stop <= T) then LoopReturn ErrPruningAborted else LoopDone) ∧
    LoopPost' from stop info s (pruneLoop' fuel from T abortSignal info s).2.
Proof.
  induction fuel as [|fuel IH]; intros from T abortSignal info s stop Hfuel Hfrom HT Hstop Hrun Hab.
  - assert (stop = from) as -> by lia.
    simpl. destruct (Z.leb_spec from T) as [?|_]; [lia|]. simpl.
    rewrite decide_False by lia. split; [done|apply LoopPost_nil].
  - simpl pruneLoop. destruct (Z.leb_spec from T) as [Hle|?]; [|lia]. cbn [negb].
    destruct (decide (stop = from)) as [->|Hne].
    + rewrite Hab by done. simpl. rewrite decide_True by done.
      split; [done|apply LoopPost_nil].
    + rewrite Hrun by lia. rewrite bind_apply.
      pose proof (pruneIteration_post from info s) as Hit.
      set (r1 := pruneIteration' from info s) in *. clearbody r1.
      rewrite idx_add_small by (unfold is_index; lia).
      destruct (IH (from + 1) T abortSignal r1.1 r1.2 stop) as [Hexit Hpost];
        try lia.
      { intros j Hj. apply Hrun. lia. }
      { done. }
      split; [done|].
      set (s' := (pruneLoop' fuel (from + 1) T abortSignal r1.1 r1.2).2) in *.
      clearbody s'. clear IH Hexit.
      destruct Hit as (evs1 & Htr1 & Hip1 & Hsep1 & Hsto1 & Hms1 & Hst1 & Hou1 & Hcase).
      destruct Hpost as (evs2 & Htr2 & Hip2 & Hsep2 & Hsto2 & Hms2 & Hst2 & Hou2 & Hco2 & Hpe2 & Hsn2 & Hsk2).
      exists (evs2 ++ evs1).
      destruct (history_app evs2 evs1) as (-> & -> & -> & ->).
      rewrite Hst1, Hst2, Hou1, Hou2.
      assert (completed evs1 = [] ∧ persisted evs1 = [] ∧ r1.1 = info
              ∧ snapshotInfo r1.2 = snapshotInfo s
              ∨ completed evs1 = [from] ∧ persisted evs1 = [withPruningIndex from info]
                ∧ r1.1 = withPruningIndex from info
                ∧ snapshotInfo r1.2 = Some (withPruningIndex from info)
                ∧ ¬ skips' from s) as Hcase'.
      { destruct Hcase as [(? & ? & ? & ?)|(? & ? & ? & ? & ?)]; [left|right]; done. }
      clear Hcase.
      repeat split.
      * rewrite Htr2, Htr1. by rewrite app_assoc.
      * congruence.
      * congruence.
      * congruence.
      * intros j Hj. rewrite Hms2 by lia.
        apply Hms1. lia.
      * rewrite (indexesDown_step from (stop - from)) by lia.
        do 2 f_equal. lia.
      * apply Forall_app. split.
        -- eapply Forall_impl; [exact Hco2|]. simpl. intros; lia.
        -- destruct Hcase' as [(-> & _)|(-> & _)]; [done|].
           apply Forall_singleton. lia.
      * rewrite map_app, Hpe2.
        destruct Hcase' as [(-> & -> & -> & _)|(-> & -> & -> & _)]; done.
      * rewrite Hsn2.
        destruct Hcase' as [(-> & _ & -> & ->)|(-> & _ & -> & -> & _)];
          destruct (completed evs2); done.
      * intros Hskips.
        rewrite Hsk2.
        -- destruct Hcase' as [(-> & _)|(_ & _ & _ & _ & Hno)]; [done|].
           exfalso. apply Hno, Hskips. lia.
        -- intros j Hj. apply (skips_lookup j s); [|apply Hskips; lia].
           apply Hms1. lia.
Qed.

(** ** The precondition checks *)

Lemma minimumIndex_eq :
  threshold_ok' →
  idx_add (idx_add SolidEntryPointCheckThresholdPast AdditionalPruningThreshold) 1 =
    SolidEntryPointCheckThresholdPast + AdditionalPruningThreshold + 1.
Proof.
  unfold threshold_ok, AdditionalPruningThreshold. intros [H0 H1].
  rewrite (idx_add_small _ 50) by (unfold is_index; lia).
  rewrite idx_add_small by (unfold is_index; lia). done.
Qed.

Lemma targetIndexMax_eq (info : SnapshotInfo) :
  threshold_ok' → info_wf info →
  SolidEntryPointCheckThresholdPast + AdditionalPruningThreshold + 1 <= SnapshotIndex info →
  targetIndexMax' info =
    SnapshotIndex info - SolidEntryPointCheckThresholdPast - AdditionalPruningThreshold - 1.
Proof.
  unfold threshold_ok, info_wf, targetIndexMax, AdditionalPruningThreshold, is_index.
  intros [H0 H1] (HS & _) Hle.
  rewrite (idx_sub_small (SnapshotIndex info)) by (unfold is_index; lia).
  rewrite (idx_sub_small _ 50) by (unfold is_index; lia).
  rewrite idx_sub_small by (unfold is_index; lia). done.
Qed.

Lemma clampTargetIndex_eq (info : SnapshotInfo) (targetIndex : Index) :
  threshold_ok' → info_wf info →
  SolidEntryPointCheckThresholdPast + AdditionalPruningThreshold + 1 <= SnapshotIndex info →
  clampTargetIndex' info targetIndex =
    Z.min targetIndex
      (SnapshotIndex info - SolidEntryPointCheckThresholdPast - AdditionalPruningThreshold - 1).
Proof.
  intros Hth Hwf Hle. unfold clampTargetIndex.
  rewrite targetIndexMax_eq by done.
  rewrite Z.gtb_ltb. destruct (Z.ltb_spec
    (SnapshotIndex info - SolidEntryPointCheckThresholdPast - AdditionalPruningThreshold - 1)
    targetIndex); lia.
Qed.

Lemma passesChecks_bounds (info : SnapshotInfo) (targetIndex : Index) :
  threshold_ok' → info_wf info → passesChecks' info targetIndex →
  clampTargetIndex' info targetIndex =
    Z.min targetIndex
      (SnapshotIndex info - SolidEntryPointCheckThresholdPast - AdditionalPruningThreshold - 1) ∧
  PruningIndex info < clampTargetIndex' info targetIndex ∧
  clampTargetIndex' info targetIndex <= SnapshotIndex info ∧
  clampTargetIndex' info targetIndex + 1 < index_modulus.
Proof.
  intros Hth Hwf (H1 & H2 & H3).
  rewrite minimumIndex_eq in H1 by done.
  pose proof (clampTargetIndex_eq info targetIndex Hth Hwf H1) as Hc.
  destruct Hth as [Hp0 Hp1]. destruct Hwf as (HS & HE & HP).
  unfold is_index, AdditionalPruningThreshold in *.
  repeat split; [done|done|lia|lia].
Qed.

Lemma pruneDatabase_passes (targetIndex : Index) (abortSignal : AbortSignal)
    (info : SnapshotInfo) (s : State) :
  snapshotInfo s = Some info → passesChecks' info targetIndex →
  pruneDatabase' targetIndex abortSignal s =
    let r := pruneDatabaseRun' (clampTargetIndex' info targetIndex) abortSignal info
               (setIsPruning true s).2 in
    (r.1, (setIsPruning false r.2).2).
Proof.
  intros Hinfo (H1 & H2 & H3).
  unfold pruneDatabase. rewrite bind_apply.
  change (GetSnapshotInfo s) with (snapshotInfo s, s). cbn [fst snd]. rewrite Hinfo.
  destruct (Z.ltb_spec (SnapshotIndex info)
    (idx_add (idx_add SolidEntryPointCheckThresholdPast AdditionalPruningThreshold) 1));
    [lia|].
  rewrite Z.geb_leb. destruct (Z.leb_spec (clampTargetIndex' info targetIndex)
    (PruningIndex info)); [lia|].
  rewrite Z.gtb_ltb. destruct (Z.ltb_spec (clampTargetIndex' info targetIndex)
    (idx_add (idx_add (EntryPointIndex info) AdditionalPruningThreshold) 1)); [lia|].
  reflexivity.
Qed.

Lemma pruneDatabase_rejected (targetIndex : Index) (abortSignal : AbortSignal)
    (info : SnapshotInfo) (s : State) :
  snapshotInfo s = Some info → ¬ passesChecks' info targetIndex →
  ∃ e, pruneDatabase' targetIndex abortSignal s = (Returned (Some e), s).
Proof.
  intros Hinfo Hno.
  unfold pruneDatabase. rewrite bind_apply.
  change (GetSnapshotInfo s) with (snapshotInfo s, s). cbn [fst snd]. rewrite Hinfo.
  destruct (Z.ltb_spec (SnapshotIndex info)
    (idx_add (idx_add SolidEntryPointCheckThresholdPast AdditionalPruningThreshold) 1));
    [by eexists|].
  rewrite Z.geb_leb. destruct (Z.leb_spec (clampTargetIndex' info targetIndex)
    (PruningIndex info)); [by eexists|].
  rewrite Z.gtb_ltb. destruct (Z.ltb_spec (clampTargetIndex' info targetIndex)
    (idx_add (idx_add (EntryPointIndex info) AdditionalPruningThreshold) 1)); [by eexists|].
  exfalso. apply Hno. unfold passesChecks. lia.
Qed.

(** ** The run after the checks *)

Lemma feedSolidEntryPoints_add (seps : list (MessageID * Index)) (s : State) :
  feedSolidEntryPoints
    (λ solidEntryPointMessageID index,
       SolidEntryPointsAdd solidEntryPointMessageID index ;; ret true) seps s =
    (tt, set_solidEntryPoints (solidEntryPoints s ∪ list_to_set seps) s).
Proof.
  revert s. induction seps as [|[id index] seps IH]; intros s.
  - destruct s. simpl. unfold ret, set_solidEntryPoints. simpl.
    by rewrite (right_id_L ∅ (∪)).
  - simpl. rewrite !bind_apply. simpl. rewrite IH.
    unfold set_solidEntryPoints. simpl. do 2 f_equal. set_solver.
Qed.

Lemma walk_state (targetIndex : Index) (abortSignal : AbortSignal) (s : State) :
  let r := callForEachSolidEntryPoint forEachSolidEntryPoint targetIndex abortSignal
             (λ solidEntryPointMessageID index,
                SolidEntryPointsAdd solidEntryPointMessageID index ;; ret true)
             (stateAtWalk s) in
  r.1 = (walkOf' targetIndex abortSignal s).2 ∧
  r.2 = set_solidEntryPoints (walkedSolidEntryPoints' targetIndex abortSignal s)
          (stateAtWalk s).
Proof.
  unfold callForEachSolidEntryPoint, walkedSolidEntryPoints, walkOf. simpl.
  split; [done|]. rewrite feedSolidEntryPoints_add. simpl.
  unfold set_solidEntryPoints. simpl. f_equal. set_solver.
Qed.

Lemma run_post (targetIndex : Index) (abortSignal : AbortSignal)
    (info : SnapshotInfo) (s : State) (T stop : Index) :
  snapshotInfo s = Some info → threshold_ok' → info_wf info →
  passesChecks' info targetIndex →
  T = clampTargetIndex' info targetIndex →
  (walkOf' T abortSignal s).2 = None →
  PruningIndex info + 1 <= stop <= T + 1 →
  (∀ j, PruningIndex info < j < stop → abortSignal j = false) →
  (stop <= T → abortSignal stop = true) →
  RunPost' info T stop abortSignal s (pruneDatabase' targetIndex abortSignal s).
Proof.
  intros Hinfo Hth Hwf Hpass HT Hwalk Hstop Hrun Hab.
  destruct (passesChecks_bounds info targetIndex Hth Hwf Hpass) as (_ & HPT & HTS & HTm).
  rewrite <- HT in *.
  rewrite (pruneDatabase_passes targetIndex abortSignal info s Hinfo Hpass).
  rewrite <- HT. clear HT Hpass targetIndex.
  unfold pruneDatabaseRun.
  rewrite !bind_apply.
  change (WriteLockSolidEntryPoints (setIsPruning true s).2) with (tt, (setIsPruning true s).2).
  cbn [fst snd].
  fold (stateAtWalk s).
  destruct (walk_state T abortSignal s) as [Hw1 Hw2].
  cbv zeta in Hw1, Hw2. rewrite Hw1, Hw2, Hwalk.
  clear Hw1 Hw2 Hwalk.
  rewrite !bind_apply.
  set (seps := walkedSolidEntryPoints' T abortSignal s) in *.
  set (entered := withEntryPointIndex T info).
  change (PruningIndex entered) with (PruningIndex info).
  set (s5 := (SetSnapshotInfo entered
                (WriteUnlockSolidEntryPoints
                   (StoreSolidEntryPoints
                      (set_solidEntryPoints seps (stateAtWalk s))).2).2).2).
  pose proof (pruneUnconfirmedMessages_frame (PruningIndex info) s5) as F6.
  change (unconfirmedCandidates s5 (PruningIndex info))
    with (unconfirmedCandidates s (PruningIndex info)) in F6.
  set (r6 := pruneUnconfirmedMessages (PruningIndex info) s5) in *.
  destruct F6 as [F6sn F6ip F6sep F6sto F6ms _ F6tr].
  change (snapshotInfo s5) with (Some entered) in F6sn.
  change (isPruning s5) with true in F6ip.
  change (solidEntryPoints s5) with seps in F6sep.
  change (storedSolidEntryPoints s5) with seps in F6sto.
  change (milestones s5) with (milestones s) in F6ms.
  change (trace s5) with ([EvSetSnapshotInfo entered; EvStoreSolidEntryPoints seps;
                            EvIsPruning true] ++ trace s) in F6tr.
  clearbody r6. clear s5.
  rewrite idx_add_small by (destruct Hwf as (_ & _ & ?); unfold is_index in *; lia).
  destruct (pruneLoop_post (Z.to_nat (T - PruningIndex info)) (PruningIndex info + 1) T
              abortSignal entered r6.2 stop) as [Hexit Hpost].
  { lia. }
  { destruct Hwf as (_ & _ & ?); unfold is_index in *; lia. }
  { done. }
  { done. }
  { intros j Hj. apply Hrun. lia. }
  { done. }
  set (r7 := pruneLoop' (Z.to_nat (T - PruningIndex info)) (PruningIndex info + 1) T
               abortSignal entered r6.2) in *.
  clearbody r7.
  destruct Hpost as (evs & Htr & Hip & Hsep & Hsto & Hms & Hst & Hou & Hco & Hpe & Hsn & Hsk).
  assert (Forall (λ j, PruningIndex info < j < stop) (completed evs)) as Hco'.
  { eapply Forall_impl; [exact Hco|]. simpl. intros; lia. }
  assert ((∀ j, PruningIndex info < j < stop → skips' j s) → completed evs = []) as Hsk'.
  { intros Hskips. apply Hsk. intros j Hj.
    apply (skips_lookup j s); [by rewrite F6ms|]. apply Hskips. lia. }
  unfold RunPost. fold seps. fold entered. cbv zeta.
  destruct (decide (stop <= T)) as [Hd|Hd]; rewrite Hexit; simpl.
  - repeat split; try congruence.
    exists evs. repeat split; try done.
    + rewrite Htr, F6tr. done.
    + rewrite Hsn, F6sn. by destruct (completed evs).
  - repeat split; try congruence.
    exists evs. repeat split; try done.
    + rewrite Htr, F6tr. done.
    + rewrite Hsn, F6sn. by destruct (completed evs).
Qed.

Lemma passesChecks_dec (info : SnapshotInfo) (targetIndex : Index) :
  passesChecks' info targetIndex ∨ ¬ passesChecks' info targetIndex.
Proof.
  unfold passesChecks.
  destruct (Z_le_dec
    (idx_add (idx_add SolidEntryPointCheckThresholdPast AdditionalPruningThreshold) 1)
    (SnapshotIndex info)); [|right; tauto].
  destruct (Z_lt_dec (PruningIndex info) (clampTargetIndex' info targetIndex));
    [|right; tauto].
  destruct (Z_le_dec
    (idx_add (idx_add (EntryPointIndex info) AdditionalPruningThreshold) 1)
    (clampTargetIndex' info targetIndex)); [left; tauto|right; tauto].
Qed.

(** The first index of a range at which the abort signal is seen, if any. *)
Lemma stop_exists (abortSignal : AbortSignal) (len : nat) (from : Index) :
  ∃ stop, from <= stop <= from + Z.of_nat len ∧
          (∀ j, from <= j < stop → abortSignal j = false) ∧
          (stop < from + Z.of_nat len → abortSignal stop = true).
Proof.
  revert from. induction len as [|len IH]; intros from.
  - exists from. repeat split; lia.
  - destruct (abortSignal from) eqn:Hab.
    + exists from. repeat split; try lia. done.
    + destruct (IH (from + 1)) as (stop & Hr & Hno & Hyes).
      exists stop. repeat split; try lia.
      * intros j Hj. destruct (decide (j = from)) as [->|Hne]; [done|].
        apply Hno. lia.
      * intros Hlt. apply Hyes. lia.
Qed.

Lemma pruneLoop_boundary (fuel : nat) :
  ∀ (from T : Index) (abortSignal : AbortSignal) (info : SnapshotInfo) (s : State),
    let s' := (pruneLoop' fuel from T abortSignal info s).2 in
    isPruning s' = isPruning s ∧
    solidEntryPoints s' = solidEntryPoints s ∧
    storedSolidEntryPoints s' = storedSolidEntryPoints s.
Proof.
  induction fuel as [|fuel IH]; intros from T abortSignal info s; simpl.
  - by destruct (negb (from <=? T)).
  - destruct (negb (from <=? T)); [done|].
    destruct (abortSignal from); [done|].
    rewrite bind_apply.
    destruct (pruneIteration_post from info s) as (_ & _ & Hip & Hsep & Hsto & _).
    destruct (IH (idx_add from 1) T abortSignal
                (pruneIteration' from info s).1 (pruneIteration' from info s).2)
      as (Hip' & Hsep' & Hsto').
    cbv zeta in Hip', Hsep', Hsto'. repeat split; congruence.
Qed.

(** The run when the walker fails: the boundary set is stored before the
    error is looked at. *)
Lemma run_walk_error (targetIndex : Index) (abortSignal : AbortSignal)
    (info : SnapshotInfo) (s : State) (T : Index) (e : error) :
  snapshotInfo s = Some info → passesChecks' info targetIndex →
  T = clampTargetIndex' info targetIndex →
  (walkOf' T abortSignal s).2 = Some e →
  pruneDatabase' targetIndex abortSignal s =
    (Returned (Some e),
     set_isPruning false
       (set_trace ([EvIsPruning false;
                    EvStoreSolidEntryPoints (walkedSolidEntryPoints' T abortSignal s);
                    EvIsPruning true] ++ trace s)
          (set_storedSolidEntryPoints (walkedSolidEntryPoints' T abortSignal s)
             (set_solidEntryPoints (walkedSolidEntryPoints' T abortSignal s) s)))).
Proof.
  intros Hinfo Hpass HT Hwalk.
  rewrite (pruneDatabase_passes targetIndex abortSignal info s Hinfo Hpass).
  rewrite <- HT. clear HT Hpass targetIndex.
  unfold pruneDatabaseRun.
  rewrite !bind_apply.
  change (WriteLockSolidEntryPoints (setIsPruning true s).2) with (tt, (setIsPruning true s).2).
  cbn [fst snd].
  fold (stateAtWalk s).
  destruct (walk_state T abortSignal s) as [Hw1 Hw2].
  cbv zeta in Hw1, Hw2. rewrite Hw1, Hw2, Hwalk.
  reflexivity.
Qed.

Lemma run_boundary (targetIndex : Index) (abortSignal : AbortSignal)
    (info : SnapshotInfo) (s : State) (T : Index) :
  snapshotInfo s = Some info → passesChecks' info targetIndex →
  T = clampTargetIndex' info targetIndex →
  let s' := (pruneDatabase' targetIndex abortSignal s).2 in
  solidEntryPoints s' = walkedSolidEntryPoints' T abortSignal s ∧
  storedSolidEntryPoints s' = walkedSolidEntryPoints' T abortSignal s.
Proof.
  intros Hinfo Hpass HT.
  destruct ((walkOf' T abortSignal s).2) as [e|] eqn:Hwalk.
  { rewrite (run_walk_error targetIndex abortSignal info s T e) by done. done. }
  rewrite (pruneDatabase_passes targetIndex abortSignal info s Hinfo Hpass).
  rewrite <- HT. clear HT Hpass targetIndex.
  unfold pruneDatabaseRun.
  rewrite !bind_apply.
  change (WriteLockSolidEntryPoints (setIsPruning true s).2) with (tt, (setIsPruning true s).2).
  cbn [fst snd].
  fold (stateAtWalk s).
  destruct (walk_state T abortSignal s) as [Hw1 Hw2].
  cbv zeta in Hw1, Hw2. rewrite Hw1, Hw2, Hwalk.
  clear Hw1 Hw2 Hwalk.
  rewrite !bind_apply.
  set (seps := walkedSolidEntryPoints' T abortSignal s) in *.
  set (entered := withEntryPointIndex T info).
  set (s5 := (SetSnapshotInfo entered
                (WriteUnlockSolidEntryPoints
                   (StoreSolidEntryPoints
                      (set_solidEntryPoints seps (stateAtWalk s))).2).2).2).
  pose proof (pruneUnconfirmedMessages_frame (PruningIndex entered) s5) as F6.
  set (r6 := pruneUnconfirmedMessages (PruningIndex entered) s5) in *.
  destruct F6 as [_ _ F6sep F6sto _ _ _].
  change (solidEntryPoints s5) with seps in F6sep.
  change (storedSolidEntryPoints s5) with seps in F6sto.
  clearbody r6. clear s5.
  destruct (pruneLoop_boundary (Z.to_nat (T - PruningIndex entered))
              (idx_add (PruningIndex entered) 1) T abortSignal entered r6.2)
    as (_ & Hsep & Hsto).
  cbv zeta in Hsep, Hsto.
  set (r7 := pruneLoop' _ _ T abortSignal entered r6.2) in *.
  clearbody r7.
  destruct (r7.1); simpl; split; congruence.
Qed.

(** The history of a run, read off [RunPost]. *)
Lemma run_history (info : SnapshotInfo) (T stop : Index) (abortSignal : AbortSignal)
    (s : State) (r : Result * State) :
  RunPost' info T stop abortSignal s r →
  ∃ completedNow,
    completed (trace r.2) = completedNow ++ completed (trace s) ∧
    Forall (λ j, PruningIndex info < j < stop) completedNow ∧
    started (trace r.2) =
      indexesDown (PruningIndex info + 1) (stop - (PruningIndex info + 1))
      ++ started (trace s) ∧
    persisted (trace r.2) =
      map (λ j, withPruningIndex j (withEntryPointIndex T info)) completedNow
      ++ withEntryPointIndex T info :: persisted (trace s) ∧
    outerEvents (trace r.2) =
      EvIsPruning false
      :: (if decide (stop <= T) then [] else [EvRunGarbageCollection])
      ++ [EvStoreSolidEntryPoints (walkedSolidEntryPoints' T abortSignal s);
          EvIsPruning true]
      ++ outerEvents (trace s) ∧
    snapshotInfo r.2 =
      Some (mkSnapshotInfo (SnapshotIndex info) T
              (default (PruningIndex info) (head completedNow))) ∧
    ((∀ j, PruningIndex info < j < stop → skips' j s) → completedNow = []).
Proof.
  intros (_ & _ & _ & _ & evs & Htr & Hst & Hou & Hco & Hpe & Hsn & Hsk).
  cbv zeta in *.
  exists (completed evs). rewrite Htr.
  set (gc := if decide (stop <= T) then [] else [EvRunGarbageCollection]).
  assert (started gc = [] ∧ completed gc = [] ∧ persisted gc = [] ∧ outerEvents gc = gc)
    as (Hg1 & Hg2 & Hg3 & Hg4).
  { subst gc. by destruct (decide (stop <= T)). }
  rewrite outerEvents_cons. simpl evOuter. cbv iota.
  change (EvIsPruning false :: gc ++ ?l) with ([EvIsPruning false] ++ gc ++ l).
  destruct (history_app [EvIsPruning false]
              (gc ++ evs ++ [EvPruneMessages (unconfirmedCandidates s (PruningIndex info));
                 EvSetSnapshotInfo (withEntryPointIndex T info);
                 EvStoreSolidEntryPoints (walkedSolidEntryPoints' T abortSignal s);
                 EvIsPruning true] ++ trace s)) as (-> & -> & -> & _).
  destruct (history_app gc
              (evs ++ [EvPruneMessages (unconfirmedCandidates s (PruningIndex info));
                 EvSetSnapshotInfo (withEntryPointIndex T info);
                 EvStoreSolidEntryPoints (walkedSolidEntryPoints' T abortSignal s);
                 EvIsPruning true] ++ trace s)) as (-> & -> & -> & ->).
  destruct (history_app evs
              ([EvPruneMessages (unconfirmedCandidates s (PruningIndex info));
                 EvSetSnapshotInfo (withEntryPointIndex T info);
                 EvStoreSolidEntryPoints (walkedSolidEntryPoints' T abortSignal s);
                 EvIsPruning true] ++ trace s)) as (-> & -> & -> & ->).
  destruct (history_app
              [EvPruneMessages (unconfirmedCandidates s (PruningIndex info));
                 EvSetSnapshotInfo (withEntryPointIndex T info);
                 EvStoreSolidEntryPoints (walkedSolidEntryPoints' T abortSignal s);
                 EvIsPruning true] (trace s)) as (-> & -> & -> & ->).
  rewrite Hg1, Hg2, Hg3, Hg4, Hst, Hou, Hpe.
  repeat split; try done.
  rewrite Hsn. by destruct (completed evs).
Qed.

(** ** The claims about [pruneDatabase] *)

(** C1 (amended).  When the walker of the boundary recomputation fails,
    [pruneDatabase] returns that error, leaves the retention state as it was
    (the entry point index is not advanced), prunes nothing and clears the
    pruning flag; but [StoreSolidEntryPoints] has run before the error is
    looked at, so the persisted boundary set is then the set of the pairs the
    walker handed over before it failed. *)
Theorem pruneDatabase_walker_error (targetIndex : Index) (abortSignal : AbortSignal)
    (info : SnapshotInfo) (s : State) (e : error) :
  snapshotInfo s = Some info →
  passesChecks' info targetIndex →
  (walkOf' (clampTargetIndex' info targetIndex) abortSignal s).2 = Some e →
  let r := pruneDatabase' targetIndex abortSignal s in
  let seps := walkedSolidEntryPoints' (clampTargetIndex' info targetIndex) abortSignal s in
  r.1 = Returned (Some e) ∧
  snapshotInfo r.2 = Some info ∧
  storedSolidEntryPoints r.2 = seps ∧
  solidEntryPoints r.2 = seps ∧
  isPruning r.2 = false ∧
  trace r.2 = [EvIsPruning false; EvStoreSolidEntryPoints seps; EvIsPruning true] ++ trace s ∧
  messages r.2 = messages s ∧ metadata r.2 = metadata s ∧
  children r.2 = children s ∧ indexations r.2 = indexations s ∧
  unconfirmed r.2 = unconfirmed s ∧ milestones r.2 = milestones s ∧
  ledgerDiffs r.2 = ledgerDiffs s.
Proof.
  intros Hinfo Hpass Hwalk.
  rewrite (run_walk_error targetIndex abortSignal info s _ e Hinfo Hpass eq_refl Hwalk).
  simpl. by rewrite Hinfo.
Qed.

(** C2 (amended).  The deletion sets of a run are not filtered by the
    boundary set the run computed: the cone of a milestone is traversed with
    the solid entry points included.  What the deletions leave alone is the
    boundary set: whatever the outcome of a run that passed the checks, the
    in-memory and the persisted solid entry points at its end are the ones
    the walker handed over in that run. *)
Theorem pruneDatabase_keeps_boundary (targetIndex : Index) (abortSignal : AbortSignal)
    (info : SnapshotInfo) (s : State) :
  snapshotInfo s = Some info →
  passesChecks' info targetIndex →
  let r := pruneDatabase' targetIndex abortSignal s in
  let seps := walkedSolidEntryPoints' (clampTargetIndex' info targetIndex) abortSignal s in
  solidEntryPoints r.2 = seps ∧ storedSolidEntryPoints r.2 = seps.
Proof.
  intros Hinfo Hpass.
  exact (run_boundary targetIndex abortSignal info s _ Hinfo Hpass eq_refl).
Qed.

(** C3.  A target index above
    [SnapshotIndex - PastThreshold - AdditionalPruningThreshold - 1] is
    clamped to it: the call does exactly what the call with the clamped
    value does, so the excess is no error of its own.  In scenario A
    (snapshot index 1000, both thresholds 50, nothing pruned, request 2000)
    the effective target is 899: when the walker succeeds and nobody aborts,
    the run returns [nil], the entry point index is 899 and the loop starts
    the iterations for the milestones 1 to 899. *)
Theorem pruneDatabase_clamps :
  (∀ (targetIndex : Index) (abortSignal : AbortSignal) (info : SnapshotInfo) (s : State),
     let clamped :=
       SnapshotIndex info - SolidEntryPointCheckThresholdPast
       - AdditionalPruningThreshold - 1 in
     snapshotInfo s = Some info → threshold_ok' → info_wf info →
     0 <= clamped → targetIndex > clamped →
     pruneDatabase' targetIndex abortSignal s = pruneDatabase' clamped abortSignal s) ∧
  (∀ (abortSignal : AbortSignal) (s : State),
     SolidEntryPointCheckThresholdPast = 50 →
     snapshotInfo s = Some (mkSnapshotInfo 1000 0 0) →
     (walkOf' 899 abortSignal s).2 = None →
     (∀ j, abortSignal j = false) →
     let r := pruneDatabase' 2000 abortSignal s in
     r.1 = Returned None ∧
     (EntryPointIndex <$> snapshotInfo r.2) = Some 899 ∧
     started (trace r.2) = indexesDown 1 899 ++ started (trace s)).
Proof.
  split.
  - intros targetIndex abortSignal info s clamped Hinfo Hth Hwf Hc Hgt.
    assert (SolidEntryPointCheckThresholdPast + AdditionalPruningThreshold + 1
            <= SnapshotIndex info) as Hle by (subst clamped; lia).
    pose proof (clampTargetIndex_eq info targetIndex Hth Hwf Hle) as H1.
    pose proof (clampTargetIndex_eq info clamped Hth Hwf Hle) as H2.
    fold clamped in H1, H2.
    rewrite Z.min_r in H1 by lia. rewrite Z.min_id in H2.
    unfold pruneDatabase. rewrite !bind_apply.
    change (GetSnapshotInfo s) with (snapshotInfo s, s). cbn [fst snd]. rewrite Hinfo.
    rewrite minimumIndex_eq by done.
    destruct (Z.ltb_spec (SnapshotIndex info)
      (SolidEntryPointCheckThresholdPast + AdditionalPruningThreshold + 1)); [lia|].
    cbv zeta. rewrite H1, H2. reflexivity.
  - intros abortSignal s HP Hinfo Hwalk Hab r.
    assert (threshold_ok') as Hth by (rewrite HP; by vm_compute).
    assert (info_wf (mkSnapshotInfo 1000 0 0)) as Hwf by (by vm_compute).
    assert (clampTargetIndex' (mkSnapshotInfo 1000 0 0) 2000 = 899) as Hc
      by (rewrite HP; reflexivity).
    assert (passesChecks' (mkSnapshotInfo 1000 0 0) 2000) as Hpass
      by (rewrite HP; by vm_compute).
    pose proof (run_post 2000 abortSignal _ s 899 900 Hinfo Hth Hwf Hpass
                  (eq_sym Hc) Hwalk) as Hrun.
    simpl PruningIndex in Hrun.
    specialize (Hrun ltac:(lia) (λ j _, Hab j) ltac:(lia)).
    fold r in Hrun.
    pose proof Hrun as (Hres & _).
    destruct (run_history _ _ _ _ _ _ Hrun)
      as (now & _ & _ & Hst & _ & _ & Hsn & _).
    rewrite decide_False in Hres by lia.
    repeat split; [done| |done].
    by rewrite Hsn.
Qed.

(** C4.  When the clamped target index is below
    [EntryPointIndex + AdditionalPruningThreshold + 1] (in [uint32]
    arithmetic, as the code computes it) and the two earlier checks let the
    request through, [pruneDatabase] returns [ErrNotEnoughHistory], wrapped
    with the two indexes, and the state after the call is the state before
    it: the pruning flag was never set, the boundary set and the retention
    state were not written, nothing was deleted and nothing was recorded. *)
Theorem pruneDatabase_threshold_rejection (targetIndex : Index)
    (abortSignal : AbortSignal) (info : SnapshotInfo) (s : State) :
  let clamped := clampTargetIndex' info targetIndex in
  let minimumIndex :=
    idx_add (idx_add (EntryPointIndex info) AdditionalPruningThreshold) 1 in
  snapshotInfo s = Some info →
  idx_add (idx_add SolidEntryPointCheckThresholdPast AdditionalPruningThreshold) 1
    <= SnapshotIndex info →
  PruningIndex info < clamped →
  minimumIndex > clamped →
  pruneDatabase' targetIndex abortSignal s =
    (Returned (Some (Wrapf ErrNotEnoughHistory minimumIndex clamped)), s) ∧
  Cause (Wrapf ErrNotEnoughHistory minimumIndex clamped) = ErrNotEnoughHistory.
Proof.
  intros clamped minimumIndex Hinfo H1 H2 H3. split; [|done].
  unfold pruneDatabase. rewrite bind_apply.
  change (GetSnapshotInfo s) with (snapshotInfo s, s). cbn [fst snd]. rewrite Hinfo.
  destruct (Z.ltb_spec (SnapshotIndex info)
    (idx_add (idx_add SolidEntryPointCheckThresholdPast AdditionalPruningThreshold) 1));
    [lia|].
  cbv zeta. fold clamped. fold minimumIndex.
  rewrite Z.geb_leb. destruct (Z.leb_spec clamped (PruningIndex info)); [lia|].
  rewrite Z.gtb_ltb. destruct (Z.ltb_spec clamped minimumIndex); [done|lia].
Qed.



(** C6.  Every run of [pruneDatabase] on a retention state with
    [PruningIndex <= EntryPointIndex <= SnapshotIndex] returns, and the
    invariant holds for the retention state it leaves and for every retention
    state it persisted on the way, whatever the outcome (success, one of the
    precondition errors, an abort, an error of the walker). *)
Theorem pruneDatabase_retention_invariant (targetIndex : Index)
    (abortSignal : AbortSignal) (info : SnapshotInfo) (s : State) :
  snapshotInfo s = Some info → threshold_ok' → info_wf info →
  retention_ok info →
  let r := pruneDatabase' targetIndex abortSignal s in
  (∃ err, r.1 = Returned err) ∧
  (∃ info', snapshotInfo r.2 = Some info' ∧ retention_ok info') ∧
  ∃ written,
    persisted (trace r.2) = written ++ persisted (trace s) ∧
    Forall retention_ok written.
Proof.
  intros Hinfo Hth Hwf Hok r.
  destruct (passesChecks_dec info targetIndex) as [Hpass|Hno].
  2: { destruct (pruneDatabase_rejected targetIndex abortSignal info s Hinfo Hno)
         as [e He].
       subst r. rewrite He. simpl.
       split; [by eexists|]. split; [by exists info|]. by exists []. }
  destruct (passesChecks_bounds info targetIndex Hth Hwf Hpass) as (_ & HPT & HTS & HTm).
  set (T := clampTargetIndex' info targetIndex) in *.
  destruct ((walkOf' T abortSignal s).2) as [e|] eqn:Hwalk.
  { subst r.
    rewrite (run_walk_error targetIndex abortSignal info s T e Hinfo Hpass eq_refl Hwalk).
    simpl. split; [by eexists|]. split; [by exists info|]. by exists []. }
  destruct (stop_exists abortSignal (Z.to_nat (T - PruningIndex info))
              (PruningIndex info + 1)) as (stop & Hstop & Hrun & Hab).
  rewrite Z2Nat.id in Hstop, Hab by lia.
  pose proof (run_post targetIndex abortSignal info s T stop Hinfo Hth Hwf Hpass
                eq_refl Hwalk ltac:(lia)) as Hpost.
  specialize (Hpost ltac:(intros j Hj; apply Hrun; lia) ltac:(intros; apply Hab; lia)).
  fold r in Hpost.
  pose proof Hpost as (Hres & _).
  destruct (run_history _ _ _ _ _ _ Hpost)
    as (now & _ & Hnow & _ & Hpe & _ & Hsn & _).
  split; [by eexists|].
  assert (retention_ok (withEntryPointIndex T info)) as Hentered.
  { unfold retention_ok. simpl. lia. }
  split.
  - eexists. split; [exact Hsn|].
    unfold retention_ok. simpl.
    destruct now as [|j now']; simpl; [lia|].
    apply Forall_cons in Hnow as [Hj _]. lia.
  - exists (map (λ j, withPruningIndex j (withEntryPointIndex T info)) now
            ++ [withEntryPointIndex T info]).
    split; [by rewrite Hpe, <- app_assoc|].
    apply Forall_app. split; [|by apply Forall_singleton].
    apply Forall_map. eapply Forall_impl; [exact Hnow|].
    intros j Hj. unfold retention_ok. simpl in *. lia.
Qed.


End PruningProofs.

(** * Concrete runs *)

(** Closes a decidable goal about a concrete run by running the model. *)
Ltac by_running := apply (bool_decide_unpack _); by vm_compute.

(** C1: in the small database, a walker that fails after one pair makes
    [pruneDatabase] return its error, and the boundary set that was persisted
    before the run is replaced. *)
Lemma walker_error_replaces_persisted_boundary :
  let r := pruneDatabase 50 noUtxoFailure walkFailing TraverseParentsModel
             51 neverAborted smallState in
  (walkOf walkFailing 51 neverAborted smallState).2 = Some (ErrExternal 1) ∧
  r.1 = Returned (Some (ErrExternal 1)) ∧
  ("old", 0) ∈ storedSolidEntryPoints smallState ∧
  (("old", 0) ∉ storedSolidEntryPoints r.2) ∧
  storedSolidEntryPoints r.2 ≠ storedSolidEntryPoints smallState.
Proof.
  assert (("old", 0) ∈ storedSolidEntryPoints smallState) as Hin.
  { by_running. }
  assert (("old", 0) ∉ storedSolidEntryPoints
            (pruneDatabase 50 noUtxoFailure walkFailing TraverseParentsModel
               51 neverAborted smallState).2) as Hout.
  { apply (bool_decide_eq_false _). by vm_compute. }
  intros r.
  split; [by vm_compute|]. split; [by vm_compute|].
  split; [exact Hin|]. split; [exact Hout|].
  intros Heq. apply Hout. unfold r in Heq. rewrite Heq. exact Hin.
Qed.

(** C2: in the small database the walker makes the message of milestone 51 a
    solid entry point, and the same run hands it to [pruneMessages] and
    deletes it. *)
Lemma solid_entry_point_in_deletion_set :
  let r := pruneDatabase 50 noUtxoFailure walkTarget TraverseParentsModel
             51 neverAborted smallState in
  r.1 = Returned None ∧
  ("m51", 51) ∈ walkedSolidEntryPoints walkTarget 51 neverAborted smallState ∧
  ("m51", 51) ∈ solidEntryPoints r.2 ∧
  {["m51"]} ∈ deletionSets (trace r.2) ∧
  messages smallState !! "m51" = Some m51 ∧
  messages r.2 !! "m51" = None.
Proof.
  intros r.
  split; [by vm_compute|].
  split; [by_running|].
  split; [by_running|].
  split; [by_running|].
  split; by vm_compute.
Qed.


(** ** The theorems at concrete runs *)

Lemma pruneMessages_absent_noop_witness :
  (∀ id, id ∈ ({["gone"]} : gset MessageID) → messages scenarioA !! id = None) ∧
  pruneMessages {["gone"]} scenarioA =
    (1, (record (EvPruneMessages {["gone"]}) scenarioA).2).
Proof.
  assert (∀ id, id ∈ ({["gone"]} : gset MessageID) → messages scenarioA !! id = None)
    as Habsent by (intros id _; reflexivity).
  split; [exact Habsent|].
  exact (proj1 (pruneMessages_absent_noop {["gone"]} scenarioA Habsent)).
Defined.

Lemma pruneDatabase_walker_error_witness :
  let r := pruneDatabase 50 noUtxoFailure walkFailing TraverseParentsModel
             51 neverAborted smallState in
  r.1 = Returned (Some (ErrExternal 1)) ∧
  snapshotInfo r.2 = Some (mkSnapshotInfo 152 0 0) ∧
  storedSolidEntryPoints r.2 = {[("m51", 51)]}.
Proof.
  pose proof (pruneDatabase_walker_error 50 noUtxoFailure walkFailing TraverseParentsModel
                51 neverAborted (mkSnapshotInfo 152 0 0) smallState (ErrExternal 1)
                eq_refl) as H.
  assert (passesChecks 50 (mkSnapshotInfo 152 0 0) 51) as Hpass by (by vm_compute).
  specialize (H Hpass eq_refl).
  destruct H as (H1 & H2 & H3 & _).
  split; [exact H1|]. split; [exact H2|].
  rewrite H3. unfold walkedSolidEntryPoints. simpl.
  apply (right_id_L ∅ (∪)).
Defined.

Lemma pruneDatabase_keeps_boundary_witness :
  let r := pruneDatabase 50 noUtxoFailure walkTarget TraverseParentsModel
             51 neverAborted smallState in
  solidEntryPoints r.2 = walkedSolidEntryPoints walkTarget 51 neverAborted smallState ∧
  storedSolidEntryPoints r.2 = walkedSolidEntryPoints walkTarget 51 neverAborted smallState.
Proof.
  assert (passesChecks 50 (mkSnapshotInfo 152 0 0) 51) as Hpass by (by vm_compute).
  exact (pruneDatabase_keeps_boundary 50 noUtxoFailure walkTarget TraverseParentsModel
           51 neverAborted (mkSnapshotInfo 152 0 0) smallState eq_refl Hpass).
Defined.

Lemma pruneDatabase_clamps_witness :
  pruneDatabase 50 noUtxoFailure walkNothing TraverseParentsModel 2000 neverAborted scenarioA =
    pruneDatabase 50 noUtxoFailure walkNothing TraverseParentsModel 899 neverAborted scenarioA ∧
  let r := pruneDatabase 50 noUtxoFailure walkNothing TraverseParentsModel
             2000 neverAborted scenarioA in
  r.1 = Returned None ∧
  (EntryPointIndex <$> snapshotInfo r.2) = Some 899 ∧
  started (trace r.2) = indexesDown 1 899 ++ [].
Proof.
  pose proof (pruneDatabase_clamps 50 noUtxoFailure walkNothing TraverseParentsModel)
    as [Hclamp Hscenario].
  split.
  - apply (Hclamp 2000 neverAborted (mkSnapshotInfo 1000 0 0) scenarioA).
    + reflexivity.
    + by vm_compute.
    + by vm_compute.
    + by vm_compute.
    + by vm_compute.
  - apply (Hscenario neverAborted scenarioA); reflexivity.
Defined.

Lemma pruneDatabase_threshold_rejection_witness :
  pruneDatabase 50 noUtxoFailure walkNothing TraverseParentsModel 40 neverAborted scenarioA =
    (Returned (Some (Wrapf ErrNotEnoughHistory 51 40)), scenarioA) ∧
  Cause (Wrapf ErrNotEnoughHistory 51 40) = ErrNotEnoughHistory.
Proof.
  apply (pruneDatabase_threshold_rejection 50 noUtxoFailure walkNothing TraverseParentsModel
           40 neverAborted (mkSnapshotInfo 1000 0 0) scenarioA).
  - reflexivity.
  - by vm_compute.
  - by vm_compute.
  - by vm_compute.
Defined.


Lemma pruneDatabase_retention_invariant_witness :
  retention_ok (mkSnapshotInfo 1000 0 0) ∧
  let r := pruneDatabase 50 noUtxoFailure walkNothing TraverseParentsModel
             2000 neverAborted scenarioA in
  (∃ err, r.1 = Returned err) ∧
  (∃ info', snapshotInfo r.2 = Some info' ∧ retention_ok info') ∧
  ∃ written,
    persisted (trace r.2) = written ++ persisted (trace scenarioA) ∧
    Forall retention_ok written.
Proof.
  assert (threshold_ok 50) as Hth by (by vm_compute).
  assert (info_wf (mkSnapshotInfo 1000 0 0)) as Hwf by (by vm_compute).
  assert (retention_ok (mkSnapshotInfo 1000 0 0)) as Hok by (by vm_compute).
  split; [exact Hok|].
  exact (pruneDatabase_retention_invariant 50 noUtxoFailure walkNothing
           TraverseParentsModel 2000 neverAborted (mkSnapshotInfo 1000 0 0) scenarioA
           eq_refl Hth Hwf Hok).
Defined.


(** With a traverser that always fails, a stored milestone is skipped too. *)
Lemma failing_traversal_is_skipped :
  let r := pruneDatabase 50 noUtxoFailure walkNothing TraverseParentsFailing
             51 neverAborted smallState in
  skips TraverseParentsFailing 51 smallState ∧
  r.1 = Returned None ∧
  snapshotInfo r.2 = Some (mkSnapshotInfo 152 51 0) ∧
  messages r.2 !! "m51" = Some m51.
Proof.
  intros r. split; [|by vm_compute].
  right. exists (mkMilestone 51 "m51"). split; [by vm_compute|].
  intros s'. discriminate.
Qed.

(** * More about the deletion engine *)

Lemma pruneMessage_absent (x : MessageID) (s : State) :
  messages s !! x = None → (pruneMessage x s).2 = s.
Proof.
  intros Hx. unfold pruneMessage. rewrite bind_apply. simpl. by rewrite Hx.
Qed.

Lemma pruneMessage_present (x : MessageID) (msg : Message) (s : State) :
  messages s !! x = Some msg →
  let id := GetMessageID msg in
  let s' := (pruneMessage x s).2 in
  messages s' = delete id (messages s) ∧
  metadata s' = delete id (metadata s) ∧
  children s' =
    delete id (alter (λ cs, cs ∖ {[id]}) (GetParent2MessageID msg)
                 (alter (λ cs, cs ∖ {[id]}) (GetParent1MessageID msg) (children s))) ∧
  indexations s' = match CheckIfIndexation msg with
                   | Some key => indexations s ∖ {[(key, id)]}
                   | None => indexations s
                   end ∧
  unconfirmed s' = unconfirmed s.
Proof.
  intros Hx. unfold pruneMessage. rewrite bind_apply. simpl. rewrite Hx.
  destruct (CheckIfIndexation msg); done.
Qed.

Lemma pruneMessage_well_keyed (x : MessageID) (s : State) :
  well_keyed s → well_keyed (pruneMessage x s).2.
Proof.
  intros Hwk. destruct (messages s !! x) as [msg|] eqn:Hx.
  - destruct (pruneMessage_present x msg s Hx) as (Hm & _).
    intros id m. rewrite Hm. intros [_ Hid]%lookup_delete_Some. by apply Hwk.
  - by rewrite pruneMessage_absent.
Qed.

(** The message store after one step of the loop of [pruneMessages]. *)
Lemma pruneMessage_messages (x : MessageID) (s : State) :
  well_keyed s → messages (pruneMessage x s).2 = delete x (messages s).
Proof.
  intros Hwk. destruct (messages s !! x) as [msg|] eqn:Hx.
  - destruct (pruneMessage_present x msg s Hx) as (Hm & _).
    by rewrite Hm, (Hwk x msg Hx).
  - rewrite pruneMessage_absent by done. by rewrite delete_id.
Qed.

(** A property that deletions cannot undo holds after the loop as soon as
    the step for one stored message of the list establishes it. *)
Lemma forEach_pruneMessage_establishes (P : State → Prop) (id : MessageID)
    (msg : Message) (l : list MessageID) :
  (∀ s0, well_keyed s0 → messages s0 !! id = Some msg → P (pruneMessage id s0).2) →
  (∀ x s0, P s0 → P (pruneMessage x s0).2) →
  ∀ s, well_keyed s → messages s !! id = Some msg → id ∈ l →
       P (forEach pruneMessage l s).2.
Proof.
  intros Hest Hpres.
  assert (∀ l' s0, P s0 → P (forEach pruneMessage l' s0).2) as Hkeep.
  { induction l' as [|x l' IH]; intros s0 HP; simpl; [done|].
    rewrite bind_apply. apply IH, Hpres, HP. }
  induction l as [|x l IH]; intros s Hwk Hid Hin.
  - by apply elem_of_nil in Hin.
  - simpl. rewrite bind_apply.
    destruct (decide (x = id)) as [->|Hne].
    + apply Hkeep, Hest; done.
    + apply elem_of_cons in Hin as [->|Hin]; [done|].
      apply IH; [by apply pruneMessage_well_keyed| |done].
      rewrite pruneMessage_messages by done. by rewrite lookup_delete_ne.
Qed.

Lemma forEach_pruneMessage_well_keyed (l : list MessageID) (s : State) :
  well_keyed s → well_keyed (forEach pruneMessage l s).2.
Proof.
  revert s. induction l as [|x l IH]; intros s Hwk; simpl; [done|].
  rewrite bind_apply. by apply IH, pruneMessage_well_keyed.
Qed.

Lemma forEach_pruneMessage_messages (l : list MessageID) (s : State) (id : MessageID) :
  well_keyed s →
  messages (forEach pruneMessage l s).2 !! id =
    if decide (id ∈ l) then None else messages s !! id.
Proof.
  revert s. induction l as [|x l IH]; intros s Hwk.
  - case_decide as Hin; [by apply elem_of_nil in Hin|done].
  - cbn [forEach]. rewrite bind_apply, IH by (by apply pruneMessage_well_keyed).
    rewrite pruneMessage_messages by done.
    destruct (decide (id ∈ l)) as [Hin|Hin]; destruct (decide (id ∈ x :: l)) as [Hin'|Hin'].
    + done.
    + exfalso. apply Hin'. by apply list_elem_of_further.
    + apply elem_of_cons in Hin' as [->|?]; [|done]. apply lookup_delete_eq.
    + apply lookup_delete_ne. intros ->. apply Hin', list_elem_of_here.
Qed.

Lemma forEach_pruneMessage_metadata_other (l : list MessageID) (s : State) (id : MessageID) :
  well_keyed s → id ∉ l → metadata (forEach pruneMessage l s).2 !! id = metadata s !! id.
Proof.
  revert s. induction l as [|x l IH]; intros s Hwk Hin; simpl; [done|].
  apply not_elem_of_cons in Hin as [Hne Hin].
  rewrite bind_apply, IH by (done || by apply pruneMessage_well_keyed).
  destruct (messages s !! x) as [msg|] eqn:Hx.
  - destruct (pruneMessage_present x msg s Hx) as (_ & Hmeta & _).
    rewrite Hmeta, (Hwk x msg Hx). by rewrite lookup_delete_ne.
  - by rewrite pruneMessage_absent.
Qed.

Lemma forEach_pruneMessage_metadata_skipped (l : list MessageID) (s : State) (id : MessageID) :
  well_keyed s → messages s !! id = None →
  metadata (forEach pruneMessage l s).2 !! id = metadata s !! id.
Proof.
  revert s. induction l as [|x l IH]; intros s Hwk Hid; simpl; [done|].
  rewrite bind_apply.
  destruct (messages s !! x) as [msg|] eqn:Hx.
  - destruct (pruneMessage_present x msg s Hx) as (Hm & Hmeta & _).
    rewrite IH.
    + rewrite Hmeta, (Hwk x msg Hx). rewrite lookup_delete_ne; [done|]. congruence.
    + by apply pruneMessage_well_keyed.
    + rewrite Hm. apply lookup_delete_None. by right.
  - rewrite pruneMessage_absent by done. by apply IH.
Qed.

(** X1.  [pruneMessages] deletes exactly the messages it is given: in a
    store that keeps each message under its own identifier, after the call
    no identifier of the set has a message, an identifier of the set whose
    message was stored has no metadata either, every other message and its
    metadata are as before, and an identifier of the set without a message
    keeps whatever metadata it had (it is skipped). *)
Theorem pruneMessages_deletes_exactly (ids : gset MessageID) (s : State) :
  well_keyed s →
  let s' := (pruneMessages ids s).2 in
  (∀ id, id ∈ ids → messages s' !! id = None) ∧
  (∀ id, id ∈ ids → is_Some (messages s !! id) → metadata s' !! id = None) ∧
  (∀ id, id ∉ ids → messages s' !! id = messages s !! id ∧
                    metadata s' !! id = metadata s !! id) ∧
  (∀ id, id ∈ ids → messages s !! id = None → metadata s' !! id = metadata s !! id) ∧
  well_keyed s'.
Proof.
  intros Hwk. unfold pruneMessages. rewrite !bind_apply. cbn [fst snd ret].
  set (s0 := (record (EvPruneMessages ids) s).2).
  assert (well_keyed s0) as Hwk0 by done.
  repeat split.
  - intros id Hin. rewrite forEach_pruneMessage_messages by done.
    rewrite decide_True; [done|]. by apply elem_of_elements.
  - intros id Hin [msg Hmsg].
    apply (forEach_pruneMessage_establishes (λ t, metadata t !! id = None) id msg);
      try done; [| |by apply elem_of_elements].
    + intros t Hwt Ht. destruct (pruneMessage_present id msg t Ht) as (_ & -> & _).
      rewrite (Hwt id msg Ht). apply lookup_delete_eq.
    + intros x t Ht. destruct (messages t !! x) as [m|] eqn:Hx.
      * destruct (pruneMessage_present x m t Hx) as (_ & -> & _).
        apply lookup_delete_None. by right.
      * by rewrite pruneMessage_absent.
  - rewrite forEach_pruneMessage_messages by done.
    rewrite decide_False; [done|]. by rewrite elem_of_elements.
  - apply (forEach_pruneMessage_metadata_other _ s0); [done|].
    by rewrite elem_of_elements.
  - intros id _ Hnone. by apply (forEach_pruneMessage_metadata_skipped _ s0).
  - by apply forEach_pruneMessage_well_keyed.
Qed.

Lemma children_alter_lookup (id k p : MessageID) (m : gmap MessageID (gset MessageID)) :
  default ∅ (alter (λ cs, cs ∖ {[id]}) k m !! p) =
    if decide (k = p) then default ∅ (m !! p) ∖ {[id]} else default ∅ (m !! p).
Proof.
  rewrite lookup_alter. case_decide as Hk; [|done].
  subst. destruct (m !! p); simpl; set_solver.
Qed.

(** The children recorded for [p] after the step of [pruneMessages] for a
    stored message. *)
Lemma pruneMessage_childrenOf (x : MessageID) (msg : Message) (s : State) (p : MessageID) :
  messages s !! x = Some msg →
  childrenOf (pruneMessage x s).2 p =
    if decide (p = GetMessageID msg) then ∅
    else if decide (p = GetParent1MessageID msg ∨ p = GetParent2MessageID msg)
         then childrenOf s p ∖ {[GetMessageID msg]}
         else childrenOf s p.
Proof.
  intros Hx. destruct (pruneMessage_present x msg s Hx) as (_ & _ & Hc & _).
  unfold childrenOf. rewrite Hc. clear Hc.
  destruct (decide (p = GetMessageID msg)) as [->|Hne].
  { by rewrite lookup_delete_eq. }
  rewrite lookup_delete_ne by done.
  rewrite !children_alter_lookup.
  repeat case_decide; try set_solver; exfalso; intuition congruence.
Qed.

Lemma pruneMessage_children_shrink (x : MessageID) (s : State) (p c : MessageID) :
  c ∈ childrenOf (pruneMessage x s).2 p → c ∈ childrenOf s p.
Proof.
  destruct (messages s !! x) as [msg|] eqn:Hx.
  - rewrite (pruneMessage_childrenOf x msg s p Hx).
    repeat case_decide; set_solver.
  - by rewrite pruneMessage_absent.
Qed.

Lemma pruneMessage_children_none (x : MessageID) (s : State) (k : MessageID) :
  children s !! k = None → children (pruneMessage x s).2 !! k = None.
Proof.
  intros Hk. destruct (messages s !! x) as [msg|] eqn:Hx.
  - destruct (pruneMessage_present x msg s Hx) as (_ & _ & -> & _).
    apply lookup_delete_None. right.
    by rewrite !lookup_alter_None.
  - by rewrite pruneMessage_absent.
Qed.

Lemma pruneMessage_indexations_shrink (x : MessageID) (s : State) :
  indexations (pruneMessage x s).2 ⊆ indexations s.
Proof.
  destruct (messages s !! x) as [msg|] eqn:Hx.
  - destruct (pruneMessage_present x msg s Hx) as (_ & _ & _ & -> & _).
    destruct (CheckIfIndexation msg); set_solver.
  - by rewrite pruneMessage_absent.
Qed.

Lemma forEach_pruneMessage_shrink (l : list MessageID) (s : State) :
  let s' := (forEach pruneMessage l s).2 in
  (∀ p c, c ∈ childrenOf s' p → c ∈ childrenOf s p) ∧
  indexations s' ⊆ indexations s ∧
  unconfirmed s' = unconfirmed s.
Proof.
  revert s. induction l as [|x l IH]; intros s; simpl; [done|].
  rewrite bind_apply. destruct (IH (pruneMessage x s).2) as (Hc & Hi & Hu).
  cbv zeta in Hc, Hi, Hu. repeat split.
  - intros p c Hin. by apply (pruneMessage_children_shrink x), Hc.
  - etrans; [exact Hi|]. apply pruneMessage_indexations_shrink.
  - rewrite Hu. destruct (messages s !! x) as [msg|] eqn:Hx.
    + by destruct (pruneMessage_present x msg s Hx) as (_ & _ & _ & _ & ->).
    + by rewrite pruneMessage_absent.
Qed.

(** X2.  [pruneMessages] detaches what it deletes: for every stored message
    of the set, afterwards its own child list is gone, it is no longer
    recorded as a child of either of its parents, and the entry of its
    indexation payload, if it has one, is removed.  The call only removes:
    no child and no indexation entry appears that was not there before, and
    the unconfirmed index is not touched. *)
Theorem pruneMessages_detaches (ids : gset MessageID) (s : State) :
  well_keyed s →
  let s' := (pruneMessages ids s).2 in
  (∀ id msg, id ∈ ids → messages s !! id = Some msg →
     children s' !! id = None ∧
     (id ∉ childrenOf s' (GetParent1MessageID msg)) ∧
     (id ∉ childrenOf s' (GetParent2MessageID msg)) ∧
     ∀ key, CheckIfIndexation msg = Some key → (key, id) ∉ indexations s') ∧
  (∀ p c, c ∈ childrenOf s' p → c ∈ childrenOf s p) ∧
  indexations s' ⊆ indexations s ∧
  unconfirmed s' = unconfirmed s.
Proof.
  intros Hwk. unfold pruneMessages. rewrite !bind_apply. cbn [fst snd ret].
  set (s0 := (record (EvPruneMessages ids) s).2).
  assert (well_keyed s0) as Hwk0 by done.
  split; [|exact (forEach_pruneMessage_shrink (elements ids) s0)].
  intros id msg Hin Hmsg.
  apply (forEach_pruneMessage_establishes
           (λ t, children t !! id = None ∧
                 (id ∉ childrenOf t (GetParent1MessageID msg)) ∧
                 (id ∉ childrenOf t (GetParent2MessageID msg)) ∧
                 ∀ key, CheckIfIndexation msg = Some key → (key, id) ∉ indexations t)
           id msg); try done; [| |by apply elem_of_elements].
  - intros t Hwt Ht. pose proof (Hwt id msg Ht) as Hid.
    rewrite !(pruneMessage_childrenOf id msg t _ Ht).
    destruct (pruneMessage_present id msg t Ht) as (_ & _ & Hc & Hi & _).
    rewrite Hc, Hi, Hid. clear Hc Hi.
    split; [apply lookup_delete_eq|].
    split; [repeat case_decide; set_solver|].
    split; [repeat case_decide; set_solver|].
    intros key ->. set_solver.
  - intros x t (H1 & H2 & H3 & H4). split; [by apply pruneMessage_children_none|].
    split; [intros Hc; by apply H2, (pruneMessage_children_shrink x)|].
    split; [intros Hc; by apply H3, (pruneMessage_children_shrink x)|].
    intros key Hkey Hc. apply (H4 key Hkey).
    by apply (pruneMessage_indexations_shrink x).
Qed.

(** X3.  Deleting the same set twice is harmless: in a store that keeps each
    message under its own identifier, the second call of [pruneMessages]
    finds none of the messages, changes no store and returns the same
    count as the first. *)
Theorem pruneMessages_twice (ids : gset MessageID) (s : State) :
  well_keyed s →
  let s1 := (pruneMessages ids s).2 in
  pruneMessages ids s1 = ((pruneMessages ids s).1, (record (EvPruneMessages ids) s1).2).
Proof.
  intros Hwk s1.
  assert (∀ id, id ∈ elements ids → messages s1 !! id = None) as Hgone.
  { intros id Hin. subst s1. unfold pruneMessages. rewrite !bind_apply. cbn [fst snd ret].
    rewrite forEach_pruneMessage_messages by done. by rewrite decide_True. }
  unfold pruneMessages at 1. rewrite !bind_apply.
  change ((record (EvPruneMessages ids) s1).1) with tt.
  rewrite forEach_pruneMessage_absent; [done|].
  intros id Hin. by apply Hgone.
Qed.

(** * More about the unconfirmed messages *)

Lemma pruneUnconfirmedMessages_state (index : Index) (s : State) :
  (pruneUnconfirmedMessages index s).2 =
    let s1 := (pruneMessages (unconfirmedCandidates s index) s).2 in
    set_unconfirmed (delete index (unconfirmed s1)) s1.
Proof.
  unfold pruneUnconfirmedMessages, unconfirmedCandidates.
  rewrite !bind_apply. simpl.
  rewrite foldM_checkUnconfirmed. simpl.
  by rewrite (right_id_L ∅ (∪)).
Qed.

(** X4.  [pruneUnconfirmedMessages] clears the unconfirmed index of its
    milestone index, whatever it deleted, and leaves the other indexes as
    they are.  In a store that keeps each message under its own identifier
    it deletes the candidates (listed, metadata stored, not confirmed) and
    nothing else: a listed message that has been confirmed keeps its
    message and its metadata. *)
Theorem pruneUnconfirmedMessages_effect (index : Index) (s : State) :
  let s' := (pruneUnconfirmedMessages index s).2 in
  unconfirmed s' !! index = None ∧
  (∀ j, j ≠ index → unconfirmed s' !! j = unconfirmed s !! j) ∧
  (well_keyed s →
   (∀ id, messages s' !! id =
          if decide (id ∈ unconfirmedCandidates s index) then None
          else messages s !! id) ∧
   (∀ id meta, metadata s !! id = Some meta → IsConfirmed meta = true →
               messages s' !! id = messages s !! id ∧
               metadata s' !! id = Some meta)).
Proof.
  intros s'. subst s'. rewrite pruneUnconfirmedMessages_state. cbv zeta.
  set (ids := unconfirmedCandidates s index).
  assert (unconfirmed (pruneMessages ids s).2 = unconfirmed s) as Hu.
  { unfold pruneMessages. rewrite !bind_apply. cbn [fst snd ret].
    by destruct (forEach_pruneMessage_shrink (elements ids)
                   (record (EvPruneMessages ids) s).2) as (_ & _ & ->). }
  unfold set_unconfirmed. cbn [unconfirmed messages metadata]. rewrite Hu.
  split; [apply lookup_delete_eq|].
  split; [intros j Hj; by apply lookup_delete_ne|].
  intros Hwk.
  assert (∀ id, messages (pruneMessages ids s).2 !! id =
                if decide (id ∈ ids) then None else messages s !! id) as Hm.
  { intros id. unfold pruneMessages. rewrite !bind_apply. cbn [fst snd ret].
    rewrite forEach_pruneMessage_messages by done.
    destruct (decide (id ∈ elements ids)) as [Hin|Hin];
      destruct (decide (id ∈ ids)) as [Hin'|Hin']; try done;
      exfalso; revert Hin Hin'; rewrite elem_of_elements; tauto. }
  split; [exact Hm|].
  intros id meta Hmeta Hconf.
  assert (id ∉ ids) as Hnot.
  { subst ids. unfold unconfirmedCandidates. rewrite elem_of_list_to_set.
    intros [Hst _]%list_elem_of_filter. unfold stillUnconfirmed in Hst.
    rewrite Hmeta, Hconf in Hst. done. }
  split.
  - rewrite Hm. by rewrite decide_False.
  - rewrite <- Hmeta. unfold pruneMessages. rewrite !bind_apply. cbn [fst snd ret].
    apply (forEach_pruneMessage_metadata_other _ (record (EvPruneMessages ids) s).2);
      [done|]. by rewrite elem_of_elements.
Qed.

Lemma pruneUnconfirmedMessages_unlisted (index : Index) (s : State) :
  unconfirmed s !! index = None →
  pruneUnconfirmedMessages index s = ((0, 0), (record (EvPruneMessages ∅) s).2).
Proof.
  intros Hnone. unfold pruneUnconfirmedMessages, GetUnconfirmedMessageIDs.
  rewrite !bind_apply. cbn [gets fst snd]. rewrite Hnone. cbn [default foldM ret fst snd].
  unfold pruneMessages. rewrite !bind_apply. cbn [ret fst snd].
  rewrite elements_empty, size_empty. cbn [forEach ret fst snd].
  destruct s. unfold DeleteUnconfirmedMessages, modify, record, set_unconfirmed, set_trace.
  simpl in *. by rewrite delete_id.
Qed.

(** X5.  For a milestone index whose unconfirmed index is empty
    [pruneUnconfirmedMessages] deletes nothing and returns the counts 0 and
    0; this is so for the second of two calls for the same index, which
    leaves every store as the first call left it. *)
Theorem pruneUnconfirmedMessages_twice (index : Index) (s : State) :
  (unconfirmed s !! index = None →
   pruneUnconfirmedMessages index s = ((0, 0), (record (EvPruneMessages ∅) s).2)) ∧
  let s1 := (pruneUnconfirmedMessages index s).2 in
  pruneUnconfirmedMessages index s1 = ((0, 0), (record (EvPruneMessages ∅) s1).2).
Proof.
  split; [apply pruneUnconfirmedMessages_unlisted|].
  intros s1. apply pruneUnconfirmedMessages_unlisted.
  subst s1. rewrite pruneUnconfirmedMessages_state. cbv zeta.
  unfold set_unconfirmed. cbn [unconfirmed]. apply lookup_delete_eq.
Qed.

(** * More about [pruneDatabase] *)

Section PruningMore.

Variable SolidEntryPointCheckThresholdPast : Index.
Variable utxoFailure : Index → State → option error.
Variable forEachSolidEntryPoint :
  Index → AbortSignal → State → list (MessageID * Index) * option error.
Variable TraverseParents :
  State → MessageID →
  (Metadata → bool * option error) →
  (Metadata → gset MessageID → gset MessageID * option error) →
  (MessageID → option error) →
  option (MessageID → unit) →
  bool →
  option AbortSignal →
  gset MessageID → gset MessageID * option error.

Local Abbreviation pruneMilestone' := (pruneMilestone utxoFailure).
Local Abbreviation pruneIteration' := (pruneIteration utxoFailure TraverseParents).
Local Abbreviation pruneLoop' := (pruneLoop utxoFailure TraverseParents).
Local Abbreviation pruneDatabaseRun' :=
  (pruneDatabaseRun utxoFailure forEachSolidEntryPoint TraverseParents).
Local Abbreviation pruneDatabase' :=
  (pruneDatabase SolidEntryPointCheckThresholdPast utxoFailure
     forEachSolidEntryPoint TraverseParents).
Local Abbreviation passesChecks' := (passesChecks SolidEntryPointCheckThresholdPast).
Local Abbreviation clampTargetIndex' := (clampTargetIndex SolidEntryPointCheckThresholdPast).
Local Abbreviation walkOf' := (walkOf forEachSolidEntryPoint).
Local Abbreviation skips' := (skips TraverseParents).
Local Abbreviation prunable' := (prunable TraverseParents).
Local Abbreviation IterationPost' := (IterationPost TraverseParents).
Local Abbreviation LoopPost' := (LoopPost TraverseParents).
Local Abbreviation RunPost' := (RunPost forEachSolidEntryPoint TraverseParents).
Local Abbreviation walkedSolidEntryPoints' := (walkedSolidEntryPoints forEachSolidEntryPoint).
Local Abbreviation stateAfterBoundary' := (stateAfterBoundary forEachSolidEntryPoint).
Local Abbreviation threshold_ok' := (threshold_ok SolidEntryPointCheckThresholdPast).

(** The run in terms of its loop, when the walker succeeded. *)
Lemma run_unfold (targetIndex : Index) (abortSignal : AbortSignal)
    (info : SnapshotInfo) (s : State) (T : Index) :
  snapshotInfo s = Some info → passesChecks' info targetIndex →
  T = clampTargetIndex' info targetIndex →
  (walkOf' T abortSignal s).2 = None →
  pruneDatabase' targetIndex abortSignal s =
    let r6 := pruneUnconfirmedMessages (PruningIndex info)
                (stateAfterBoundary' info T abortSignal s) in
    let r7 := pruneLoop' (Z.to_nat (T - PruningIndex info))
                (idx_add (PruningIndex info) 1) T abortSignal
                (withEntryPointIndex T info) r6.2 in
    match r7.1 with
    | LoopDone => (Returned None, (setIsPruning false (RunGarbageCollection r7.2).2).2)
    | LoopReturn e => (Returned (Some e), (setIsPruning false r7.2).2)
    | LoopOutOfFuel => (Diverged, (setIsPruning false r7.2).2)
    end.
Proof.
  intros Hinfo Hpass HT Hwalk.
  rewrite (pruneDatabase_passes _ _ _ _ targetIndex abortSignal info s Hinfo Hpass).
  rewrite <- HT. clear HT Hpass targetIndex.
  unfold pruneDatabaseRun.
  rewrite !bind_apply.
  change (WriteLockSolidEntryPoints (setIsPruning true s).2) with (tt, (setIsPruning true s).2).
  cbn [fst snd].
  fold (stateAtWalk s).
  destruct (walk_state utxoFailure forEachSolidEntryPoint TraverseParents T abortSignal s)
    as [Hw1 Hw2].
  cbv zeta in Hw1, Hw2. rewrite Hw1, Hw2, Hwalk.
  clear Hw1 Hw2 Hwalk.
  rewrite !bind_apply.
  change (PruningIndex (withEntryPointIndex T info)) with (PruningIndex info).
  change ((SetSnapshotInfo (withEntryPointIndex T info)
             (WriteUnlockSolidEntryPoints
                (StoreSolidEntryPoints
                   (set_solidEntryPoints (walkedSolidEntryPoints' T abortSignal s)
                      (stateAtWalk s))).2).2).2)
    with (stateAfterBoundary' info T abortSignal s).
  cbv zeta.
  set (r7 := pruneLoop' _ _ T abortSignal _ _). clearbody r7.
  by destruct (r7.1).
Qed.


(** An iteration for a prunable milestone ends with the notification. *)
Lemma pruneIteration_head (j : Index) (info : SnapshotInfo) (s : State) :
  prunable' j s →
  ∃ rest, trace (pruneIteration' j info s).2 = EvPruningMilestoneIndexChanged j :: rest.
Proof.
  intros (ms & Hms & Hok).
  unfold pruneIteration.
  rewrite !bind_apply.
  set (r1 := pruneUnconfirmedMessages j (Infof (LogPruningMilestone j) s).2).
  assert (milestones r1.2 = milestones s) as Hlook
    by exact (frame_milestones _ _ _ (pruneUnconfirmedMessages_frame j _)).
  clearbody r1.
  change (GetCachedMilestoneOrNil j r1.2) with (milestones r1.2 !! j, r1.2).
  cbn [fst snd]. rewrite Hlook, Hms.
  rewrite bind_apply, traverseMilestoneCone_state, Hok.
  rewrite !bind_apply. by eexists.
Qed.

Lemma pruneIteration_completes (j : Index) (info : SnapshotInfo) (s : State) :
  prunable' j s →
  let r := pruneIteration' j info s in
  r.1 = withPruningIndex j info ∧
  snapshotInfo r.2 = Some (withPruningIndex j info) ∧
  completed (trace r.2) = j :: completed (trace s) ∧
  (∀ j', j' ≠ j → milestones r.2 !! j' = milestones s !! j').
Proof.
  intros Hpr r.
  destruct (pruneIteration_head j info s Hpr) as [rest Hhead]. fold r in Hhead.
  destruct (pruneIteration_post utxoFailure TraverseParents j info s)
    as (evs & Htr & _ & _ & _ & Hms & Hst & _ & Hcase).
  fold r in Htr, Hms, Hcase.
  destruct Hcase as [(_ & _ & Hco & _)|(H1 & H2 & Hco & _)].
  - exfalso. rewrite Hhead in Htr.
    destruct evs as [|e evs]; [done|].
    simpl in Htr. injection Htr as <- _. done.
  - repeat split; try done.
    rewrite Htr. destruct (history_app evs (trace s)) as (_ & -> & _). by rewrite Hco.
Qed.

Lemma prunable_lookup (j : Index) (s s' : State) :
  milestones s' !! j = milestones s !! j → prunable' j s → prunable' j s'.
Proof. unfold prunable. intros ->. done. Qed.

Lemma pruneLoop_progress (fuel : nat) :
  ∀ (from T : Index) (abortSignal : AbortSignal) (info : SnapshotInfo) (s : State),
    Z.of_nat fuel = T + 1 - from → 0 <= from → T + 1 < index_modulus →
    (∀ j, from <= j <= T → abortSignal j = false) →
    (∀ j, from <= j <= T → prunable' j s) →
    let s' := (pruneLoop' fuel from T abortSignal info s).2 in
    completed (trace s') = indexesDown from (T + 1 - from) ++ completed (trace s) ∧
    snapshotInfo s' = if decide (from <= T) then Some (withPruningIndex T info)
                      else snapshotInfo s.
Proof.
  induction fuel as [|fuel IH]; intros from T abortSignal info s Hfuel Hfrom HT Hrun Hpr.
  - simpl. destruct (Z.leb_spec from T) as [?|_]; [lia|]. simpl.
    rewrite decide_False by lia. replace (T + 1 - from) with 0 by lia. done.
  - simpl pruneLoop. destruct (Z.leb_spec from T) as [Hle|?]; [|lia]. cbn [negb].
    rewrite Hrun by lia. rewrite bind_apply.
    destruct (pruneIteration_completes from info s (Hpr from ltac:(lia)))
      as (H1 & H2 & H3 & H4).
    cbv zeta in H1, H2, H3, H4.
    set (r1 := pruneIteration' from info s) in *. clearbody r1.
    rewrite idx_add_small by (unfold is_index; lia).
    destruct (IH (from + 1) T abortSignal r1.1 r1.2) as [Hco Hsn]; try lia.
    { intros j Hj. apply Hrun. lia. }
    { intros j Hj. apply (prunable_lookup j s); [apply H4; lia|apply Hpr; lia]. }
    cbv zeta in Hco, Hsn. rewrite Hco, Hsn, H1, H2, H3.
    rewrite (decide_True (P:=from <= T)) by lia. split.
    + rewrite (indexesDown_step from (T + 1 - from)) by lia.
      rewrite <- app_assoc. do 2 f_equal. lia.
    + case_decide; [done|]. by replace T with from by lia.
Qed.

(** X6.  A request that [pruneDatabase] turns down changes nothing.  With
    too little history ([SnapshotIndex] below the minimum index) the error is
    [ErrNotEnoughHistory], wrapped with the minimum index and the target
    index as it was requested; with enough history and a pruning index at or
    above the clamped target index it is [ErrNoPruningNeeded], wrapped with
    the pruning index and the clamped target index; without a retention
    state the call panics.  In all three cases the state after the call is
    the state before it. *)
Theorem pruneDatabase_rejections (targetIndex : Index) (abortSignal : AbortSignal)
    (s : State) :
  match snapshotInfo s with
  | None =>
      pruneDatabase' targetIndex abortSignal s = (Panicked "No snapshotInfo found!", s)
  | Some info =>
      let minimumIndex :=
        idx_add (idx_add SolidEntryPointCheckThresholdPast AdditionalPruningThreshold) 1 in
      let clamped := clampTargetIndex' info targetIndex in
      (SnapshotIndex info < minimumIndex →
       pruneDatabase' targetIndex abortSignal s =
         (Returned (Some (Wrapf ErrNotEnoughHistory minimumIndex targetIndex)), s)) ∧
      (minimumIndex <= SnapshotIndex info → clamped <= PruningIndex info →
       pruneDatabase' targetIndex abortSignal s =
         (Returned (Some (Wrapf ErrNoPruningNeeded (PruningIndex info) clamped)), s))
  end.
Proof.
  unfold pruneDatabase. rewrite bind_apply.
  change (GetSnapshotInfo s) with (snapshotInfo s, s). cbn [fst snd].
  destruct (snapshotInfo s) as [info|]; [|done].
  cbv zeta. split.
  - intros Hlt.
    destruct (Z.ltb_spec (SnapshotIndex info)
      (idx_add (idx_add SolidEntryPointCheckThresholdPast AdditionalPruningThreshold) 1));
      [done|lia].
  - intros Hge Hle.
    destruct (Z.ltb_spec (SnapshotIndex info)
      (idx_add (idx_add SolidEntryPointCheckThresholdPast AdditionalPruningThreshold) 1));
      [lia|].
    rewrite Z.geb_leb.
    destruct (Z.leb_spec (clampTargetIndex' info targetIndex) (PruningIndex info));
      [done|lia].
Qed.

Lemma pruneLoop_outer (fuel : nat) :
  ∀ (from T : Index) (abortSignal : AbortSignal) (info : SnapshotInfo) (s : State),
    ∃ evs, trace (pruneLoop' fuel from T abortSignal info s).2 = evs ++ trace s ∧
           outerEvents evs = [].
Proof.
  induction fuel as [|fuel IH]; intros from T abortSignal info s; simpl.
  - exists []. by destruct (negb (from <=? T)).
  - destruct (negb (from <=? T)); [by exists []|].
    destruct (abortSignal from); [by exists []|].
    rewrite bind_apply.
    destruct (pruneIteration_post utxoFailure TraverseParents from info s)
      as (evs1 & Htr1 & _ & _ & _ & _ & _ & Hou1 & _).
    destruct (IH (idx_add from 1) T abortSignal
                (pruneIteration' from info s).1 (pruneIteration' from info s).2)
      as (evs2 & Htr2 & Hou2).
    exists (evs2 ++ evs1). rewrite Htr2, Htr1, app_assoc. split; [done|].
    destruct (history_app evs2 evs1) as (_ & _ & _ & ->). by rewrite Hou1, Hou2.
Qed.

(** X7.  Once the checks are passed, whatever the walker returns and
    whenever the run is aborted, [pruneDatabase] raises the pruning flag
    before anything else and clears it after everything else, stores the
    boundary set once, and runs the garbage collection once if it returns
    [nil] and not at all otherwise. *)
Theorem pruneDatabase_brackets (targetIndex : Index) (abortSignal : AbortSignal)
    (info : SnapshotInfo) (s : State) :
  snapshotInfo s = Some info →
  passesChecks' info targetIndex →
  let r := pruneDatabase' targetIndex abortSignal s in
  let T := clampTargetIndex' info targetIndex in
  isPruning r.2 = false ∧
  (∃ mid, trace r.2 = EvIsPruning false :: mid ++ [EvIsPruning true] ++ trace s) ∧
  outerEvents (trace r.2) =
    EvIsPruning false
    :: match r.1 with
       | Returned None => [EvRunGarbageCollection]
       | _ => []
       end
    ++ [EvStoreSolidEntryPoints (walkedSolidEntryPoints' T abortSignal s);
        EvIsPruning true]
    ++ outerEvents (trace s).
Proof.
  intros Hinfo Hpass r T.
  destruct ((walkOf' T abortSignal s).2) as [e|] eqn:Hwalk.
  { subst r.
    rewrite (run_walk_error _ _ _ _ targetIndex abortSignal info s T e Hinfo Hpass
               eq_refl Hwalk).
    cbn [fst snd].
    split; [done|]. split; [by eexists [_]|].
    cbn [trace set_isPruning set_trace app].
    by rewrite !outerEvents_cons. }
  subst r. rewrite (run_unfold targetIndex abortSignal info s T Hinfo Hpass eq_refl Hwalk).
  cbv zeta.
  set (s5 := stateAfterBoundary' info T abortSignal s).
  pose proof (pruneUnconfirmedMessages_frame (PruningIndex info) s5) as F6.
  set (r6 := pruneUnconfirmedMessages (PruningIndex info) s5) in *.
  apply frame_trace in F6.
  change (trace s5) with ([EvSetSnapshotInfo (withEntryPointIndex T info);
                           EvStoreSolidEntryPoints (walkedSolidEntryPoints' T abortSignal s);
                           EvIsPruning true] ++ trace s) in F6.
  clearbody r6. subst s5.
  destruct (pruneLoop_outer (Z.to_nat (T - PruningIndex info))
              (idx_add (PruningIndex info) 1) T abortSignal
              (withEntryPointIndex T info) r6.2) as (evs & Htr & Hou).
  set (r7 := pruneLoop' _ _ T abortSignal _ _) in *. clearbody r7.
  assert (outerEvents (trace r7.2) =
            [EvStoreSolidEntryPoints (walkedSolidEntryPoints' T abortSignal s);
             EvIsPruning true] ++ outerEvents (trace s)) as Hout.
  { rewrite Htr, F6.
    destruct (history_app evs
                ([EvPruneMessages (unconfirmedCandidates
                     (stateAfterBoundary' info T abortSignal s) (PruningIndex info))] ++
                 [EvSetSnapshotInfo (withEntryPointIndex T info);
                  EvStoreSolidEntryPoints (walkedSolidEntryPoints' T abortSignal s);
                  EvIsPruning true] ++ trace s)) as (_ & _ & _ & ->).
    rewrite Hou. cbn [app]. by rewrite !outerEvents_cons. }
  assert (∃ mid, trace r7.2 = mid ++ [EvIsPruning true] ++ trace s) as [mid Hmid].
  { rewrite Htr, F6. eexists (evs ++ [_; _; _]). by rewrite <- app_assoc. }
  destruct (r7.1) as [|e|]; cbn [fst snd].
  - split; [done|].
    split; [exists (EvRunGarbageCollection :: mid); cbn; by rewrite Hmid|].
    cbn [trace setIsPruning modify set_isPruning set_trace RunGarbageCollection record snd].
    rewrite !outerEvents_cons. cbn. by rewrite Hout.
  - split; [done|].
    split; [exists mid; cbn; by rewrite Hmid|].
    cbn [trace setIsPruning modify set_isPruning set_trace snd].
    rewrite !outerEvents_cons. cbn. by rewrite Hout.
  - split; [done|].
    split; [exists mid; cbn; by rewrite Hmid|].
    cbn [trace setIsPruning modify set_isPruning set_trace snd].
    rewrite !outerEvents_cons. cbn. by rewrite Hout.
Qed.


(** X9.  [pruneDatabase] only prunes where it may: whatever its outcome, the
    iterations it starts are for milestone indexes above the pruning index
    it found, at most the requested target index and at most
    [SnapshotIndex - PastThreshold - AdditionalPruningThreshold - 1], and no
    milestone record outside that range is deleted. *)
Theorem pruneDatabase_prunes_in_range (targetIndex : Index) (abortSignal : AbortSignal)
    (info : SnapshotInfo) (s : State) :
  snapshotInfo s = Some info → threshold_ok' → info_wf info →
  let r := pruneDatabase' targetIndex abortSignal s in
  let limit := SnapshotIndex info - SolidEntryPointCheckThresholdPast
               - AdditionalPruningThreshold - 1 in
  (∀ j, j <= PruningIndex info ∨ limit < j ∨ targetIndex < j →
        milestones r.2 !! j = milestones s !! j) ∧
  ∃ startedNow,
    started (trace r.2) = startedNow ++ started (trace s) ∧
    Forall (λ j, PruningIndex info < j <= limit ∧ j <= targetIndex) startedNow.
Proof.
  intros Hinfo Hth Hwf r limit.
  destruct (passesChecks_dec SolidEntryPointCheckThresholdPast utxoFailure
              forEachSolidEntryPoint info targetIndex) as [Hpass|Hno].
  2: { destruct (pruneDatabase_rejected _ utxoFailure forEachSolidEntryPoint
                   TraverseParents targetIndex abortSignal info s Hinfo Hno) as [e He].
       subst r. rewrite He. split; [done|]. by exists []. }
  destruct (passesChecks_bounds _ info targetIndex Hth Hwf Hpass) as (HTeq & HPT & HTS & HTm).
  set (T := clampTargetIndex' info targetIndex) in *.
  assert (T <= limit ∧ T <= targetIndex) as [HTl HTt] by (subst limit; lia).
  assert (0 <= PruningIndex info) as HP0 by (destruct Hwf as (_ & _ & [? _]); done).
  destruct ((walkOf' T abortSignal s).2) as [e|] eqn:Hwalk.
  { subst r.
    rewrite (run_walk_error _ _ _ _ targetIndex abortSignal info s T e Hinfo Hpass
               eq_refl Hwalk).
    split; [done|]. by exists []. }
  subst r. rewrite (run_unfold targetIndex abortSignal info s T Hinfo Hpass eq_refl Hwalk).
  cbv zeta.
  set (s5 := stateAfterBoundary' info T abortSignal s).
  pose proof (pruneUnconfirmedMessages_frame (PruningIndex info) s5) as F6.
  set (r6 := pruneUnconfirmedMessages (PruningIndex info) s5) in *.
  destruct F6 as [_ _ _ _ F6ms _ F6tr].
  change (milestones s5) with (milestones s) in F6ms.
  assert (started (trace r6.2) = started (trace s)) as F6st by (by rewrite F6tr).
  clearbody r6. clear F6tr. subst s5.
  rewrite idx_add_small by (unfold is_index; lia).
  destruct (stop_exists abortSignal (Z.to_nat (T - PruningIndex info))
              (PruningIndex info + 1)) as (stop & Hstop & Hrun & Hab).
  rewrite Z2Nat.id in Hstop, Hab by lia.
  destruct (pruneLoop_post utxoFailure TraverseParents
              (Z.to_nat (T - PruningIndex info)) (PruningIndex info + 1) T
              abortSignal (withEntryPointIndex T info) r6.2 stop)
    as [_ Hpost]; try lia; try done.
  { intros Hle. apply Hab. lia. }
  set (r7 := pruneLoop' _ _ T abortSignal _ _) in *. clearbody r7.
  destruct Hpost as (evs & Htr & _ & _ & _ & Hms & Hst & _).
  assert (∀ j, j <= PruningIndex info ∨ limit < j ∨ targetIndex < j →
               milestones r7.2 !! j = milestones s !! j) as Hkeep.
  { intros j Hj. rewrite Hms by lia. by rewrite F6ms. }
  assert (started (trace r7.2) =
            indexesDown (PruningIndex info + 1) (stop - (PruningIndex info + 1))
            ++ started (trace s)) as Hstarted.
  { rewrite Htr. destruct (history_app evs (trace r6.2)) as (-> & _).
    by rewrite Hst, F6st. }
  assert (Forall (λ j, PruningIndex info < j <= limit ∧ j <= targetIndex)
            (indexesDown (PruningIndex info + 1) (stop - (PruningIndex info + 1))))
    as Hrange.
  { apply Forall_forall. intros j Hj. unfold indexesDown in Hj.
    apply elem_of_reverse, elem_of_seqZ in Hj. lia. }
  destruct (r7.1); cbn [fst snd]; (split; [exact Hkeep|]);
    eexists; (split; [|exact Hrange]); exact Hstarted.
Qed.

(** What a run that passed the checks and whose walker succeeded leaves as
    its retention state. *)
Lemma run_retention (targetIndex : Index) (abortSignal : AbortSignal)
    (info : SnapshotInfo) (s : State) :
  let T := clampTargetIndex' info targetIndex in
  snapshotInfo s = Some info → threshold_ok' → info_wf info →
  passesChecks' info targetIndex →
  (walkOf' T abortSignal s).2 = None →
  ∃ p, snapshotInfo (pruneDatabase' targetIndex abortSignal s).2 =
         Some (mkSnapshotInfo (SnapshotIndex info) T p) ∧
       PruningIndex info <= p <= T.
Proof.
  intros T Hinfo Hth Hwf Hpass Hwalk.
  destruct (passesChecks_bounds _ info targetIndex Hth Hwf Hpass) as (_ & HPT & HTS & HTm).
  fold T in HPT, HTS, HTm.
  destruct (stop_exists abortSignal (Z.to_nat (T - PruningIndex info))
              (PruningIndex info + 1)) as (stop & Hstop & Hrun & Hab).
  rewrite Z2Nat.id in Hstop, Hab by lia.
  pose proof (run_post _ utxoFailure forEachSolidEntryPoint TraverseParents
                targetIndex abortSignal info s T stop Hinfo Hth Hwf Hpass
                eq_refl Hwalk ltac:(lia)) as Hpost.
  specialize (Hpost ltac:(intros j Hj; apply Hrun; lia) ltac:(intros; apply Hab; lia)).
  destruct (run_history _ _ _ _ _ _ _ _ Hpost) as (now & _ & Hnow & _ & _ & _ & Hsn & _).
  eexists. split; [exact Hsn|].
  destruct now as [|j now']; simpl; [lia|].
  apply Forall_cons in Hnow as [Hj _]. lia.
Qed.

(** X10.  The retention state only moves forward, as long as
    [EntryPointIndex + AdditionalPruningThreshold + 1] fits 32 bits:
    whatever the outcome of [pruneDatabase], the snapshot index is
    unchanged, the pruning index does not decrease, and the entry point
    index is either unchanged or at least
    [AdditionalPruningThreshold + 1] larger; all three are still [uint32]
    values. *)
Theorem pruneDatabase_moves_forward (targetIndex : Index) (abortSignal : AbortSignal)
    (info : SnapshotInfo) (s : State) :
  snapshotInfo s = Some info → threshold_ok' → info_wf info →
  EntryPointIndex info + AdditionalPruningThreshold + 1 < index_modulus →
  let r := pruneDatabase' targetIndex abortSignal s in
  ∃ info',
    snapshotInfo r.2 = Some info' ∧
    SnapshotIndex info' = SnapshotIndex info ∧
    (EntryPointIndex info' = EntryPointIndex info ∨
     EntryPointIndex info + AdditionalPruningThreshold + 1 <= EntryPointIndex info') ∧
    PruningIndex info <= PruningIndex info' ∧
    info_wf info'.
Proof.
  intros Hinfo Hth Hwf Hfit r.
  destruct (passesChecks_dec SolidEntryPointCheckThresholdPast utxoFailure
              forEachSolidEntryPoint info targetIndex) as [Hpass|Hno].
  2: { destruct (pruneDatabase_rejected _ utxoFailure forEachSolidEntryPoint
                   TraverseParents targetIndex abortSignal info s Hinfo Hno) as [e He].
       subst r. rewrite He. exists info.
       split; [done|]. split; [done|]. split; [by left|]. split; [lia|done]. }
  destruct (passesChecks_bounds _ info targetIndex Hth Hwf Hpass) as (_ & HPT & HTS & HTm).
  set (T := clampTargetIndex' info targetIndex) in *.
  destruct ((walkOf' T abortSignal s).2) as [e|] eqn:Hwalk.
  { subst r.
    rewrite (run_walk_error _ _ _ _ targetIndex abortSignal info s T e Hinfo Hpass
               eq_refl Hwalk).
    exists info.
       split; [done|]. split; [done|]. split; [by left|]. split; [lia|done]. }
  destruct (run_retention targetIndex abortSignal info s Hinfo Hth Hwf Hpass Hwalk)
    as (p & Hsn & Hp).
  fold T in Hsn, Hp. fold r in Hsn.
  exists (mkSnapshotInfo (SnapshotIndex info) T p).
  destruct Hpass as (_ & _ & H3). fold T in H3.
  assert (0 <= EntryPointIndex info) as HE0 by (destruct Hwf as (_ & [? _] & _); done).
  unfold AdditionalPruningThreshold in *.
  rewrite (idx_add_small _ 50) in H3 by (unfold is_index; lia).
  rewrite idx_add_small in H3 by (unfold is_index; lia).
  destruct Hwf as (HS & HE & HP). unfold is_index in *.
  split; [done|]. split; [done|]. split; [right; simpl; lia|].
  split; [simpl; lia|].
  unfold info_wf, is_index. simpl. lia.
Qed.

(** X11.  Near the end of the index range the threshold check wraps around:
    when [EntryPointIndex + AdditionalPruningThreshold + 1] does not fit 32
    bits, the check of lines 129-132 compares the wrapped sum, a request can
    pass it, and the run then sets the entry point index back, to a clamped
    target index below the entry point index it found. *)
Theorem pruneDatabase_entry_point_wraps (targetIndex : Index) (abortSignal : AbortSignal)
    (info : SnapshotInfo) (s : State) :
  let T := clampTargetIndex' info targetIndex in
  snapshotInfo s = Some info → threshold_ok' → info_wf info →
  index_modulus <= EntryPointIndex info + AdditionalPruningThreshold + 1 →
  passesChecks' info targetIndex →
  (walkOf' T abortSignal s).2 = None →
  let r := pruneDatabase' targetIndex abortSignal s in
  T < EntryPointIndex info ∧
  ∃ info', snapshotInfo r.2 = Some info' ∧ EntryPointIndex info' = T.
Proof.
  intros T Hinfo Hth Hwf Hwrap Hpass Hwalk r.
  destruct (passesChecks_bounds _ info targetIndex Hth Hwf Hpass) as (HTeq & _ & _ & _).
  fold T in HTeq.
  destruct (run_retention targetIndex abortSignal info s Hinfo Hth Hwf Hpass Hwalk)
    as (p & Hsn & _).
  fold T in Hsn. fold r in Hsn.
  split; [|by eexists].
  destruct Hth as [Hp0 Hp1]. destruct Hwf as (HS & HE & HP).
  unfold is_index, AdditionalPruningThreshold in *. lia.
Qed.

(** X13.  The boundary advances in steps: after a run that passed the checks
    and whose walker succeeded, the entry point index is the clamped target
    index [T] of that run, so a further request whose clamped target index
    is below [T + AdditionalPruningThreshold + 1] is turned down without any
    change,
    with [ErrNoPruningNeeded] when the pruning index has reached the
    clamped request and with [ErrNotEnoughHistory] otherwise.  This is so
    for the same request again after an abort or after skipped milestones:
    the indexes that were left are not pruned by it. *)
Theorem pruneDatabase_next_step (targetIndex targetIndex2 : Index)
    (abortSignal abortSignal2 : AbortSignal) (info : SnapshotInfo) (s : State) :
  let T := clampTargetIndex' info targetIndex in
  snapshotInfo s = Some info → threshold_ok' → info_wf info →
  passesChecks' info targetIndex →
  (walkOf' T abortSignal s).2 = None →
  Z.min targetIndex2
    (SnapshotIndex info - SolidEntryPointCheckThresholdPast
     - AdditionalPruningThreshold - 1)
    < T + AdditionalPruningThreshold + 1 →
  let s1 := (pruneDatabase' targetIndex abortSignal s).2 in
  ∃ info1 e,
    snapshotInfo s1 = Some info1 ∧ EntryPointIndex info1 = T ∧
    pruneDatabase' targetIndex2 abortSignal2 s1 = (Returned (Some e), s1) ∧
    Cause e = if decide (clampTargetIndex' info1 targetIndex2 <= PruningIndex info1)
              then ErrNoPruningNeeded else ErrNotEnoughHistory.
Proof.
  intros T Hinfo Hth Hwf Hpass Hwalk Hlt s1.
  destruct (passesChecks_bounds _ info targetIndex Hth Hwf Hpass) as (HTeq & HPT & HTS & HTm).
  fold T in HTeq, HPT, HTS, HTm.
  destruct (run_retention targetIndex abortSignal info s Hinfo Hth Hwf Hpass Hwalk)
    as (p & Hsn & Hp).
  fold T in Hsn, Hp. fold s1 in Hsn.
  set (info1 := mkSnapshotInfo (SnapshotIndex info) T p) in *.
  pose proof Hpass as (H1 & _ & _).
  rewrite minimumIndex_eq in H1 by done.
  assert (info_wf info1) as Hwf1.
  { destruct Hwf as (HS & HE & HP). unfold info_wf, is_index in *. simpl. lia. }
  pose proof (clampTargetIndex_eq _ info1 targetIndex2 Hth Hwf1 H1) as Hc2.
  change (SnapshotIndex info1) with (SnapshotIndex info) in Hc2.
  set (T2 := clampTargetIndex' info1 targetIndex2) in *.
  assert (idx_add (idx_add T AdditionalPruningThreshold) 1
          = T + AdditionalPruningThreshold + 1) as Hsum.
  { destruct Hth as [Hp0 Hp1]. destruct Hwf as (HS & HE & HP).
    unfold is_index, AdditionalPruningThreshold in *.
    rewrite (idx_add_small _ 50) by (unfold is_index; lia).
    rewrite idx_add_small by (unfold is_index; lia). done. }
  assert (∀ e e', (if Z.ltb (SnapshotIndex info1)
                      (SolidEntryPointCheckThresholdPast + AdditionalPruningThreshold + 1)
                then e' else
                if PruningIndex info1 >=? T2
                then ret (Returned (Some (Wrapf ErrNoPruningNeeded (PruningIndex info1) T2)))
                else if T + AdditionalPruningThreshold + 1 >? T2
                then ret (Returned (Some (Wrapf ErrNotEnoughHistory
                                            (T + AdditionalPruningThreshold + 1) T2)))
                else e) s1 =
               (Returned (Some (Wrapf (if decide (T2 <= PruningIndex info1)
                                       then ErrNoPruningNeeded else ErrNotEnoughHistory)
                                  (if decide (T2 <= PruningIndex info1)
                                   then PruningIndex info1
                                   else T + AdditionalPruningThreshold + 1) T2)), s1))
    as Hcode.
  { intros e0 e0'.
    destruct (Z.ltb_spec (SnapshotIndex info1)
      (SolidEntryPointCheckThresholdPast + AdditionalPruningThreshold + 1));
      [simpl in *; lia|].
    rewrite Z.geb_leb, Z.gtb_ltb.
    destruct (decide (T2 <= PruningIndex info1)) as [Hd|Hd].
    - destruct (Z.leb_spec T2 (PruningIndex info1)); [done|lia].
    - destruct (Z.leb_spec T2 (PruningIndex info1)); [lia|].
      destruct (Z.ltb_spec T2 (T + AdditionalPruningThreshold + 1)); [done|lia]. }
  exists info1.
  eexists. split; [exact Hsn|]. split; [done|].
  unfold pruneDatabase. rewrite bind_apply.
  change (GetSnapshotInfo s1) with (snapshotInfo s1, s1). cbn [fst snd]. rewrite Hsn.
  rewrite minimumIndex_eq by done.
  cbv zeta. fold T2.
  change (EntryPointIndex info1) with T. rewrite Hsum.
  split; [apply Hcode|].
  by destruct (decide (T2 <= PruningIndex info1)).
Qed.

End PruningMore.

(** X12.  [pruneMilestone] works on one index only: the milestone records
    and the ledger diffs of the other indexes, the messages, their metadata
    and the unconfirmed index are as before, and nothing is recorded in the
    history.  After a successful call neither the milestone record nor the
    ledger diff of the index is left, and a second call that the ledger
    storage lets through changes nothing more. *)
Theorem pruneMilestone_local (utxoFailure : Index → State → option error)
    (milestoneIndex : Index) (s : State) :
  let r := pruneMilestone utxoFailure milestoneIndex s in
  (∀ j, j ≠ milestoneIndex →
        milestones r.2 !! j = milestones s !! j ∧
        (j ∈ ledgerDiffs r.2 ↔ j ∈ ledgerDiffs s)) ∧
  messages r.2 = messages s ∧ metadata r.2 = metadata s ∧
  unconfirmed r.2 = unconfirmed s ∧ snapshotInfo r.2 = snapshotInfo s ∧
  trace r.2 = trace s ∧
  (r.1 = None →
   milestones r.2 !! milestoneIndex = None ∧ (milestoneIndex ∉ ledgerDiffs r.2) ∧
   (utxoFailure milestoneIndex r.2 = None →
    pruneMilestone utxoFailure milestoneIndex r.2 = (None, r.2))).
Proof.
  unfold pruneMilestone, PruneMilestoneIndex. rewrite bind_apply.
  destruct (utxoFailure milestoneIndex s) as [e|] eqn:Hfail; cbn [fst snd].
  { repeat split; try done. }
  rewrite bind_apply. cbn [fst snd ret DeleteMilestone modify].
  repeat split; try done.
  - simpl. by rewrite lookup_delete_ne.
  - simpl. set_solver.
  - simpl. set_solver.
  - simpl. apply lookup_delete_eq.
  - simpl. set_solver.
  - intros Hretry. rewrite bind_apply. rewrite Hretry. cbn [fst snd].
    rewrite bind_apply. cbn [fst snd ret DeleteMilestone modify].
    f_equal. unfold set_milestones, set_ledgerDiffs. simpl.
    rewrite delete_delete_eq. f_equal. set_solver.
Qed.

(** ** The further theorems at concrete runs *)

Lemma tangleState_well_keyed : well_keyed tangleState.
Proof.
  change (map_Forall (λ id msg, GetMessageID msg = id) (messages tangleState)).
  apply (bool_decide_unpack _). by vm_compute.
Qed.

Lemma pruneMessages_deletes_exactly_witness :
  well_keyed tangleState ∧
  let s' := (pruneMessages {["a"; "c"]} tangleState).2 in
  messages s' !! "a" = None ∧ metadata s' !! "a" = None ∧
  messages s' !! "b" = messages tangleState !! "b" ∧
  metadata s' !! "c" = metadata tangleState !! "c".
Proof.
  split; [exact tangleState_well_keyed|].
  destruct (pruneMessages_deletes_exactly {["a"; "c"]} tangleState tangleState_well_keyed)
    as (H1 & H2 & H3 & H4 & _).
  split; [apply H1; set_solver|].
  split; [apply H2; [set_solver|by eexists]|].
  split; [apply H3; set_solver|].
  apply H4; [set_solver|reflexivity].
Defined.

Lemma pruneMessages_detaches_witness :
  let s' := (pruneMessages {["a"]} tangleState).2 in
  children s' !! "a" = None ∧ ("a" ∉ childrenOf s' "g1") ∧ ("a" ∉ childrenOf s' "g2") ∧
  (("tag", "a") ∉ indexations s').
Proof.
  destruct (pruneMessages_detaches {["a"]} tangleState tangleState_well_keyed)
    as (H1 & _).
  destruct (H1 "a" (mkMessage "a" "g1" "g2" (Some "tag")) ltac:(set_solver) eq_refl)
    as (Ha & Hb & Hc & Hd).
  split; [exact Ha|]. split; [exact Hb|]. split; [exact Hc|].
  exact (Hd "tag" eq_refl).
Defined.

Lemma pruneMessages_twice_witness :
  let s1 := (pruneMessages {["a"; "c"]} tangleState).2 in
  pruneMessages {["a"; "c"]} s1 =
    ((pruneMessages {["a"; "c"]} tangleState).1,
     (record (EvPruneMessages {["a"; "c"]}) s1).2).
Proof.
  exact (pruneMessages_twice {["a"; "c"]} tangleState tangleState_well_keyed).
Defined.

Lemma pruneUnconfirmedMessages_effect_witness :
  let s' := (pruneUnconfirmedMessages 7 tangleState).2 in
  unconfirmed s' !! 7 = None ∧
  messages s' !! "b" = messages tangleState !! "b" ∧
  metadata s' !! "b" = Some (mkMetadata "b" "a" "g2" true).
Proof.
  destruct (pruneUnconfirmedMessages_effect 7 tangleState) as (H1 & _ & H3).
  destruct (H3 tangleState_well_keyed) as (_ & H5).
  destruct (H5 "b" (mkMetadata "b" "a" "g2" true) eq_refl eq_refl) as (Hm & Hmeta).
  split; [exact H1|]. split; [exact Hm|exact Hmeta].
Defined.

Lemma pruneUnconfirmedMessages_twice_witness :
  unconfirmed tangleState !! 8 = None ∧
  pruneUnconfirmedMessages 8 tangleState =
    ((0, 0), (record (EvPruneMessages ∅) tangleState).2).
Proof.
  split; [reflexivity|].
  exact (proj1 (pruneUnconfirmedMessages_twice 8 tangleState) eq_refl).
Defined.

(** Scenario C of the spec: the pruning index is already above the target. *)
Lemma pruneDatabase_rejections_witness :
  let s := emptyState (mkSnapshotInfo 1000 500 500) in
  pruneDatabase 50 noUtxoFailure walkNothing TraverseParentsModel 400 neverAborted s =
    (Returned (Some (Wrapf ErrNoPruningNeeded 500 400)), s).
Proof.
  intros s.
  pose proof (pruneDatabase_rejections 50 noUtxoFailure walkNothing TraverseParentsModel
                400 neverAborted s) as H.
  simpl snapshotInfo in H. cbv zeta in H. destruct H as [_ H].
  apply H; by vm_compute.
Defined.

Lemma pruneDatabase_brackets_witness :
  let r := pruneDatabase 50 noUtxoFailure walkFailing TraverseParentsModel
             51 neverAborted smallState in
  isPruning r.2 = false ∧
  outerEvents (trace r.2) =
    [EvIsPruning false;
     EvStoreSolidEntryPoints (walkedSolidEntryPoints walkFailing 51 neverAborted smallState);
     EvIsPruning true].
Proof.
  assert (passesChecks 50 (mkSnapshotInfo 152 0 0) 51) as Hpass by (by vm_compute).
  destruct (pruneDatabase_brackets 50 noUtxoFailure walkFailing TraverseParentsModel
              51 neverAborted (mkSnapshotInfo 152 0 0) smallState eq_refl Hpass)
    as (H1 & _ & H3).
  split; [exact H1|]. exact H3.
Defined.

Lemma milestoneState_prunable (j : Index) :
  0 < j <= 51 → prunable TraverseParentsNothing j milestoneState.
Proof.
  intros Hj.
  assert (Forall (λ i, is_Some (milestones milestoneState !! i)) (seqZ 1 51)) as Hall.
  { apply (bool_decide_unpack _). by vm_compute. }
  rewrite Forall_forall in Hall.
  destruct (Hall j) as [ms Hms]; [apply elem_of_seqZ; lia|].
  exists ms. split; [exact Hms|]. intros s'. reflexivity.
Qed.


Lemma pruneDatabase_prunes_in_range_witness :
  let r := pruneDatabase 50 noUtxoFailure walkNothing TraverseParentsNothing
             2000 neverAborted milestoneState in
  (∀ j, j <= 0 ∨ 51 < j ∨ 2000 < j →
        milestones r.2 !! j = milestones milestoneState !! j) ∧
  ∃ startedNow,
    started (trace r.2) = startedNow ++ [] ∧
    Forall (λ j, 0 < j <= 51 ∧ j <= 2000) startedNow.
Proof.
  assert (threshold_ok 50) as Hth by (by vm_compute).
  assert (info_wf (mkSnapshotInfo 152 0 0)) as Hwf by (by vm_compute).
  exact (pruneDatabase_prunes_in_range 50 noUtxoFailure walkNothing TraverseParentsNothing
           2000 neverAborted (mkSnapshotInfo 152 0 0) milestoneState eq_refl Hth Hwf).
Defined.

Lemma pruneDatabase_moves_forward_witness :
  let r := pruneDatabase 50 noUtxoFailure walkNothing TraverseParentsNothing
             2000 (abortedFrom 20) milestoneState in
  ∃ info',
    snapshotInfo r.2 = Some info' ∧ SnapshotIndex info' = 152 ∧
    (EntryPointIndex info' = 0 ∨ 0 + 50 + 1 <= EntryPointIndex info') ∧
    0 <= PruningIndex info' ∧ info_wf info'.
Proof.
  assert (threshold_ok 50) as Hth by (by vm_compute).
  assert (info_wf (mkSnapshotInfo 152 0 0)) as Hwf by (by vm_compute).
  assert (EntryPointIndex (mkSnapshotInfo 152 0 0) + AdditionalPruningThreshold + 1
          < index_modulus) as Hfit by (by vm_compute).
  exact (pruneDatabase_moves_forward 50 noUtxoFailure walkNothing TraverseParentsNothing
           2000 (abortedFrom 20) (mkSnapshotInfo 152 0 0) milestoneState
           eq_refl Hth Hwf Hfit).
Defined.

Lemma pruneDatabase_entry_point_wraps_witness :
  let r := pruneDatabase 50 noUtxoFailure walkNothing TraverseParentsNothing
             100 neverAborted (emptyState lateInfo) in
  100 < 4294967290 ∧
  ∃ info', snapshotInfo r.2 = Some info' ∧ EntryPointIndex info' = 100.
Proof.
  assert (threshold_ok 50) as Hth by (by vm_compute).
  assert (info_wf lateInfo) as Hwf by (by vm_compute).
  assert (index_modulus <= EntryPointIndex lateInfo + AdditionalPruningThreshold + 1)
    as Hwrap by (by vm_compute).
  assert (passesChecks 50 lateInfo 100) as Hpass by (by vm_compute).
  exact (pruneDatabase_entry_point_wraps 50 noUtxoFailure walkNothing TraverseParentsNothing
           100 neverAborted lateInfo (emptyState lateInfo)
           eq_refl Hth Hwf Hwrap Hpass eq_refl).
Defined.

Lemma pruneMilestone_local_witness :
  let r := pruneMilestone noUtxoFailure 7 tangleState in
  r.1 = None ∧ milestones r.2 !! 7 = None ∧ (7 ∉ ledgerDiffs r.2) ∧
  pruneMilestone noUtxoFailure 7 r.2 = (None, r.2).
Proof.
  destruct (pruneMilestone_local noUtxoFailure 7 tangleState) as (_ & _ & _ & _ & _ & _ & H).
  destruct (H eq_refl) as (H1 & H2 & H3).
  split; [reflexivity|]. split; [exact H1|]. split; [exact H2|]. exact (H3 eq_refl).
Defined.

Lemma pruneDatabase_next_step_witness :
  let s1 := (pruneDatabase 50 noUtxoFailure walkNothing TraverseParentsModel
               2000 (abortedFrom 2) scenarioA).2 in
  ∃ info1 e,
    snapshotInfo s1 = Some info1 ∧ EntryPointIndex info1 = 899 ∧
    pruneDatabase 50 noUtxoFailure walkNothing TraverseParentsModel
      2000 neverAborted s1 = (Returned (Some e), s1) ∧
    Cause e = if decide (clampTargetIndex 50 info1 2000 <= PruningIndex info1)
              then ErrNoPruningNeeded else ErrNotEnoughHistory.
Proof.
  assert (threshold_ok 50) as Hth by (by vm_compute).
  assert (info_wf (mkSnapshotInfo 1000 0 0)) as Hwf by (by vm_compute).
  assert (passesChecks 50 (mkSnapshotInfo 1000 0 0) 2000) as Hpass by (by vm_compute).
  assert (Z.min 2000 (SnapshotIndex (mkSnapshotInfo 1000 0 0) - 50
                      - AdditionalPruningThreshold - 1)
          < clampTargetIndex 50 (mkSnapshotInfo 1000 0 0) 2000
            + AdditionalPruningThreshold + 1) as Hlt by (by vm_compute).
  exact (pruneDatabase_next_step 50 noUtxoFailure walkNothing TraverseParentsModel
           2000 2000 (abortedFrom 2) neverAborted (mkSnapshotInfo 1000 0 0) scenarioA
           eq_refl Hth Hwf Hpass eq_refl Hlt).
Defined.
